(** * Bracket propagation and state reconciliation of the bracket page

    A shallow embedding of the bracket-editing component (BracketPage):
    the match graph held in React state, the optimistic updaters
    [updateMatchInState], [updateNextMatchSlotInState] and
    [updatePlayInGame3LoserInState], the handlers [handleSetWinner],
    [handleUndo], [handleSelectGames], [handleSaveBracket], the reload
    [loadBracket] and the derived values [allDecided] and [canSave].

    React state is threaded explicitly ([State]); an [await] on the backend
    is modelled by handing the handler the [Outcome] of the call, and the
    handler returns the state it ends in together with the requests it
    sent. *)

From stdpp Require Import gmap strings list fin_maps.
From Stdlib Require Import ZArith.

(** ** JavaScript values *)

(** An optional, nullable field [f?: T | null] has three kinds of value. *)
Inductive JsOpt (T : Type) : Type :=
  | Undefined
  | Null
  | Val (v : T).
Arguments Undefined {T}.
Arguments Null {T}.
Arguments Val {T} v.

(** [x ?? null] *)
Definition orNull {T} (x : JsOpt T) : JsOpt T :=
  match x with
  | Undefined => Null
  | _ => x
  end.

(** Truthiness of a [string | null] value: [null] and the empty string are
    falsy.  The result is the string when the value is truthy. *)
Definition truthy (o : option string) : option string :=
  match o with
  | Some s => if bool_decide (s = "") then None else Some s
  | None => None
  end.

(** Truthiness of an optional [string | null] field. *)
Definition truthyJs (o : JsOpt string) : option string :=
  match o with
  | Val s => if bool_decide (s = "") then None else Some s
  | _ => None
  end.

(** [msg || fallback] on strings. *)
Definition orElse (msg fallback : string) : string :=
  if bool_decide (msg = "") then fallback else msg.

(** ** Data model *)

(** The side of a match: ["A" | "B"]. *)
Inductive Side : Type := A | B.

(** The slot of the next match a winner goes to: ["a" | "b"]. *)
Inductive NextSlot : Type := slot_a | slot_b.

#[global] Instance Side_eq_dec : EqDecision Side.
Proof. solve_decision. Defined.
#[global] Instance NextSlot_eq_dec : EqDecision NextSlot.
Proof. solve_decision. Defined.
#[global] Instance JsOpt_eq_dec {T} `{EqDecision T} : EqDecision (JsOpt T).
Proof. solve_decision. Defined.

(** [Match & MatchWithTeamMeta] *)
Record Match : Type := {
  id : string;
  bracket_id : string;
  conference : string;
  round : Z;
  slot : Z;
  team_a : option string;
  team_b : option string;
  predicted_winner : option string;
  predicted_winner_games : option Z;
  next_match_id : JsOpt string;
  next_slot : JsOpt NextSlot;
  team_a_name : JsOpt string;
  team_b_name : JsOpt string;
  team_a_code : JsOpt string;
  team_b_code : JsOpt string;
  team_a_logo_url : JsOpt string;
  team_b_logo_url : JsOpt string;
  team_a_primary_color : JsOpt string;
  team_a_secondary_color : JsOpt string;
  team_b_primary_color : JsOpt string;
  team_b_secondary_color : JsOpt string
}.

#[global] Instance Match_eq_dec : EqDecision Match.
Proof. solve_decision. Defined.

(** [MatchesByConfRound]: conference, then round key, then the matches. *)
Abbreviation MatchesByConfRound := (gmap string (gmap string (list Match))).

(** The part of [Bracket] the bracket page reads; its [id] is
    [bracket_ident] here, [id] being the id of a match. *)
Record Bracket : Type := {
  bracket_ident : string;
  user_id : string;
  is_done : bool;
  deleted_at : option string;
  saved_at : option string;
  name : option string;
  is_owner : option bool;
  is_master : option bool;
  isMaster : option bool
}.

Record BracketResponse : Type := {
  resp_bracket : Bracket;
  resp_matches : MatchesByConfRound
}.

(** The response of the save request: [res?.name], [res?.saved_at]. *)
Record SaveResponse : Type := {
  res_name : option string;
  res_saved_at : option string
}.

(** The React state of the page (the [useState] cells the handlers use). *)
Record State : Type := {
  bracket : option Bracket;
  matches : option MatchesByConfRound;
  loading : bool;
  saving : bool;
  updatingMatchId : option string;
  error : option string;
  bracketName : string;
  saveMessage : option string;
  playoffsLocked : bool;
  pendingGames : gmap string Z
}.

(** What the component gets from its hooks: the route parameter and the
    signed-in user. *)
Record Env : Type := {
  bracketId : option string;
  user_is_admin : bool
}.

(** The outcome of an awaited backend call. *)
Inductive Outcome (T : Type) : Type :=
  | Resolved (data : T)
  | Rejected (message : string).
Arguments Resolved {T} data.
Arguments Rejected {T} message.

(** The body of a PATCH on a match. *)
Inductive MatchAction : Type :=
  | set_winner (team : string) (games : Z)
  | undo.

Inductive Request : Type :=
  | GET_bracket (bracketId : string)
  | PATCH_match (bracketId matchId : string) (body : MatchAction)
  | PATCH_save (bracketId : string) (name : string).

(** ** State setters *)

Definition setBracket (v : option Bracket) (st : State) : State :=
  {| bracket := v; matches := matches st; loading := loading st;
     saving := saving st; updatingMatchId := updatingMatchId st;
     error := error st; bracketName := bracketName st;
     saveMessage := saveMessage st; playoffsLocked := playoffsLocked st;
     pendingGames := pendingGames st |}.

Definition setMatches
    (f : option MatchesByConfRound → option MatchesByConfRound)
    (st : State) : State :=
  {| bracket := bracket st; matches := f (matches st); loading := loading st;
     saving := saving st; updatingMatchId := updatingMatchId st;
     error := error st; bracketName := bracketName st;
     saveMessage := saveMessage st; playoffsLocked := playoffsLocked st;
     pendingGames := pendingGames st |}.

Definition setLoading (v : bool) (st : State) : State :=
  {| bracket := bracket st; matches := matches st; loading := v;
     saving := saving st; updatingMatchId := updatingMatchId st;
     error := error st; bracketName := bracketName st;
     saveMessage := saveMessage st; playoffsLocked := playoffsLocked st;
     pendingGames := pendingGames st |}.

Definition setSaving (v : bool) (st : State) : State :=
  {| bracket := bracket st; matches := matches st; loading := loading st;
     saving := v; updatingMatchId := updatingMatchId st;
     error := error st; bracketName := bracketName st;
     saveMessage := saveMessage st; playoffsLocked := playoffsLocked st;
     pendingGames := pendingGames st |}.

Definition setUpdatingMatchId (v : option string) (st : State) : State :=
  {| bracket := bracket st; matches := matches st; loading := loading st;
     saving := saving st; updatingMatchId := v;
     error := error st; bracketName := bracketName st;
     saveMessage := saveMessage st; playoffsLocked := playoffsLocked st;
     pendingGames := pendingGames st |}.

Definition setError (v : option string) (st : State) : State :=
  {| bracket := bracket st; matches := matches st; loading := loading st;
     saving := saving st; updatingMatchId := updatingMatchId st;
     error := v; bracketName := bracketName st;
     saveMessage := saveMessage st; playoffsLocked := playoffsLocked st;
     pendingGames := pendingGames st |}.

Definition setBracketName (v : string) (st : State) : State :=
  {| bracket := bracket st; matches := matches st; loading := loading st;
     saving := saving st; updatingMatchId := updatingMatchId st;
     error := error st; bracketName := v;
     saveMessage := saveMessage st; playoffsLocked := playoffsLocked st;
     pendingGames := pendingGames st |}.

Definition setSaveMessage (v : option string) (st : State) : State :=
  {| bracket := bracket st; matches := matches st; loading := loading st;
     saving := saving st; updatingMatchId := updatingMatchId st;
     error := error st; bracketName := bracketName st;
     saveMessage := v; playoffsLocked := playoffsLocked st;
     pendingGames := pendingGames st |}.

Definition setPendingGames (f : gmap string Z → gmap string Z)
    (st : State) : State :=
  {| bracket := bracket st; matches := matches st; loading := loading st;
     saving := saving st; updatingMatchId := updatingMatchId st;
     error := error st; bracketName := bracketName st;
     saveMessage := saveMessage st; playoffsLocked := playoffsLocked st;
     pendingGames := f (pendingGames st) |}.

(** ** Match updaters: the object spreads of the source *)

(** [{ ...m, predicted_winner: w, predicted_winner_games: g }] *)
Definition with_prediction (w : option string) (g : option Z) (m : Match)
    : Match :=
  {| id := id m; bracket_id := bracket_id m; conference := conference m;
     round := round m; slot := slot m;
     team_a := team_a m; team_b := team_b m;
     predicted_winner := w; predicted_winner_games := g;
     next_match_id := next_match_id m; next_slot := next_slot m;
     team_a_name := team_a_name m; team_b_name := team_b_name m;
     team_a_code := team_a_code m; team_b_code := team_b_code m;
     team_a_logo_url := team_a_logo_url m;
     team_b_logo_url := team_b_logo_url m;
     team_a_primary_color := team_a_primary_color m;
     team_a_secondary_color := team_a_secondary_color m;
     team_b_primary_color := team_b_primary_color m;
     team_b_secondary_color := team_b_secondary_color m |}.

(** A team as it sits on one side of a match: the reference and the
    denormalized display metadata. *)
Record TeamFields : Type := {
  tf_team : option string;
  tf_name : JsOpt string;
  tf_code : JsOpt string;
  tf_logo_url : JsOpt string;
  tf_primary_color : JsOpt string;
  tf_secondary_color : JsOpt string
}.

(** The fields read through the [src...Key] keys of side [s]. *)
Definition side_fields (s : Side) (m : Match) : TeamFields :=
  match s with
  | A => {| tf_team := team_a m; tf_name := team_a_name m;
            tf_code := team_a_code m; tf_logo_url := team_a_logo_url m;
            tf_primary_color := team_a_primary_color m;
            tf_secondary_color := team_a_secondary_color m |}
  | B => {| tf_team := team_b m; tf_name := team_b_name m;
            tf_code := team_b_code m; tf_logo_url := team_b_logo_url m;
            tf_primary_color := team_b_primary_color m;
            tf_secondary_color := team_b_secondary_color m |}
  end.

(** What the propagation writes for a team [teamId] taken from side [s] of
    [src]: the id, and each metadata field [src[key] ?? null]. *)
Definition copied_fields (s : Side) (teamId : string) (src : Match)
    : TeamFields :=
  {| tf_team := Some teamId;
     tf_name := orNull (tf_name (side_fields s src));
     tf_code := orNull (tf_code (side_fields s src));
     tf_logo_url := orNull (tf_logo_url (side_fields s src));
     tf_primary_color := orNull (tf_primary_color (side_fields s src));
     tf_secondary_color := orNull (tf_secondary_color (side_fields s src)) |}.

(** Assigning the six [dest...Key] fields of side [d] and clearing the
    prediction: the updater body shared by the two propagation rules. *)
Definition write_slot (d : Side) (t : TeamFields) (m : Match) : Match :=
  match d with
  | A =>
    {| id := id m; bracket_id := bracket_id m; conference := conference m;
       round := round m; slot := slot m;
       team_a := tf_team t; team_b := team_b m;
       predicted_winner := None; predicted_winner_games := None;
       next_match_id := next_match_id m; next_slot := next_slot m;
       team_a_name := tf_name t; team_b_name := team_b_name m;
       team_a_code := tf_code t; team_b_code := team_b_code m;
       team_a_logo_url := tf_logo_url t;
       team_b_logo_url := team_b_logo_url m;
       team_a_primary_color := tf_primary_color t;
       team_a_secondary_color := tf_secondary_color t;
       team_b_primary_color := team_b_primary_color m;
       team_b_secondary_color := team_b_secondary_color m |}
  | B =>
    {| id := id m; bracket_id := bracket_id m; conference := conference m;
       round := round m; slot := slot m;
       team_a := team_a m; team_b := tf_team t;
       predicted_winner := None; predicted_winner_games := None;
       next_match_id := next_match_id m; next_slot := next_slot m;
       team_a_name := team_a_name m; team_b_name := tf_name t;
       team_a_code := team_a_code m; team_b_code := tf_code t;
       team_a_logo_url := team_a_logo_url m;
       team_b_logo_url := tf_logo_url t;
       team_a_primary_color := team_a_primary_color m;
       team_a_secondary_color := team_a_secondary_color m;
       team_b_primary_color := tf_primary_color t;
       team_b_secondary_color := tf_secondary_color t |}
  end.

(** ** Optimistic updaters *)

(** [ms.map((m) => m.id === matchId ? updater(m) : m)] *)
Definition update_if (matchId : string) (updater : Match → Match) (m : Match)
    : Match :=
  if bool_decide (id m = matchId) then updater m else m.

(** The two [for ... of Object.entries(...)] loops that rebuild the graph,
    with [f] applied to every match of every array. *)
Definition graph_map (f : Match → Match) (g : MatchesByConfRound)
    : MatchesByConfRound :=
  (λ rounds : gmap string (list Match),
     (λ ms : list Match, f <$> ms) <$> rounds) <$> g.

(** The functional update handed to [setMatches] by [updateMatchInState]. *)
Definition updateMatchInState (matchId : string) (updater : Match → Match)
    (prev : option MatchesByConfRound) : option MatchesByConfRound :=
  match prev with
  | None => None
  | Some prev => Some (graph_map (update_if matchId updater) prev)
  end.

(** [destSlotLetter = match.next_slot === "a" ? "A" : "B"] *)
Definition destSlotLetter (s : NextSlot) : Side :=
  match s with
  | slot_a => A
  | slot_b => B
  end.

Definition updateNextMatchSlotInState (match_ : Match) (winnerSide : Side)
    (winnerTeamId : string)
    (prev : option MatchesByConfRound) : option MatchesByConfRound :=
  match truthyJs (next_match_id match_), next_slot match_ with
  | Some nextId, Val ns =>
    updateMatchInState nextId
      (write_slot (destSlotLetter ns)
         (copied_fields winnerSide winnerTeamId match_)) prev
  | _, _ => prev
  end.

(** [roundMatches.find((m) => m.round === 0 && m.slot === 3)] in
    [matches[conf]?.[String(0)]]. *)
Definition is_game3 (m : Match) : bool :=
  bool_decide (round m = 0%Z) && bool_decide (slot m = 3%Z).

Definition find_game3 (matches_ : MatchesByConfRound) (conf : string)
    : option Match :=
  roundMatches ← (matches_ !! conf ≫= λ rounds, rounds !! "0");
  List.find is_game3 roundMatches.

(** [matches_] is the [matches] value the handler closed over; [prev] is
    the state the queued update is applied to. *)
Definition updatePlayInGame3LoserInState
    (matches_ : option MatchesByConfRound) (match_ : Match)
    (loserSide : Side) (loserTeamId : string)
    (prev : option MatchesByConfRound) : option MatchesByConfRound :=
  if bool_decide (round match_ ≠ 0%Z) || bool_decide (slot match_ ≠ 2%Z)
  then prev
  else
    match matches_ ≫= λ g, find_game3 g (conference match_) with
    | None => prev
    | Some game3 =>
      updateMatchInState (id game3)
        (write_slot B (copied_fields loserSide loserTeamId match_)) prev
    end.

(** ** Permissions *)

Definition isOwner (st : State) : bool :=
  default false (bracket st ≫= is_owner).

Definition isAdmin (env : Env) : bool := user_is_admin env.

(** The constant [isMaster] of the component (the name is taken by the
    field of [Bracket]). *)
Definition isMasterBracket (st : State) : bool :=
  default false (bracket st ≫= is_master)
  || default false (bracket st ≫= isMaster).

(** Owner can edit their own; admin can edit the master. *)
Definition canEdit (env : Env) (st : State) : bool :=
  isOwner st || (isAdmin env && isMasterBracket st).

Definition savingLockedForUser (env : Env) (st : State) : bool :=
  playoffsLocked st && negb (isAdmin env).

(** ** Load / reload *)

(** [loadBracket] up to its [await get(...)]. *)
Definition loadBracket_begin (env : Env) (silent : bool) (st : State)
    : option (State * Request) :=
  bid ← truthy (bracketId env);
  Some (setError None (if silent then st else setLoading true st),
        GET_bracket bid).

(** [loadBracket] from the outcome of the GET to its end. *)
Definition loadBracket_end (silent : bool) (res : Outcome BracketResponse)
    (st : State) : State :=
  let st' :=
    match res with
    | Resolved data =>
      setBracketName (default "" (name (resp_bracket data)))
        (setMatches (λ _, Some (resp_matches data))
           (setBracket (Some (resp_bracket data)) st))
    | Rejected msg => setError (Some (orElse msg "Failed to load bracket")) st
    end in
  if silent then st' else setLoading false st'.

Definition loadBracket (env : Env) (silent : bool)
    (res : Outcome BracketResponse) (st : State) : State * list Request :=
  match loadBracket_begin env silent st with
  | None => (st, [])
  | Some (st1, req) => (loadBracket_end silent res st1, [req])
  end.

(** The [catch] block shared by the three match handlers: set the error,
    then re-sync with [loadBracket({ silent: true })]. *)
Definition recover (env : Env) (msg fallback : string)
    (reload : Outcome BracketResponse) (st : State) : State * list Request :=
  loadBracket env true reload (setError (Some (orElse msg fallback)) st).

(** ** Setting a winner *)

(** The series length [handleSetWinner] records. *)
Definition winner_games (pending_ : gmap string Z) (match_ : Match)
    (winnerTeamId : string) : Z :=
  if bool_decide (round match_ = 0%Z) then 1%Z
  else
    let pending := pending_ !! id match_ in
    let existing :=
      if bool_decide (predicted_winner match_ = Some winnerTeamId)
      then predicted_winner_games match_
      else None in
    match existing with
    | Some g => g
    | None => match pending with
              | Some g => g
              | None => 4%Z
              end
    end.

Definition other_side (s : Side) : Side :=
  match s with
  | A => B
  | B => A
  end.

(** [handleSetWinner] up to its [await patch(...)]: the optimistic local
    mutation, and the request it sends.  [None] is an early [return]. *)
Definition handleSetWinner_local (env : Env) (st : State) (match_ : Match)
    (team : Side) : option (State * Request) :=
  bid ← truthy (bracketId env);
  _ ← matches st;
  guard (canEdit env st = true);;
  ta ← truthy (team_a match_);
  tb ← truthy (team_b match_);
  let winnerTeamId := match team with A => ta | B => tb end in
  let loserTeamId := match team with A => tb | B => ta end in
  let winnerSide := team in
  let loserSide := other_side team in
  let games := winner_games (pendingGames st) match_ winnerTeamId in
  let st1 :=
    setMatches
      (updateMatchInState (id match_)
         (with_prediction (Some winnerTeamId) (Some games))) st in
  let st2 :=
    setMatches (updateNextMatchSlotInState match_ winnerSide winnerTeamId)
      st1 in
  let st3 :=
    setMatches
      (updatePlayInGame3LoserInState (matches st) match_ loserSide
         loserTeamId) st2 in
  let st4 := setPendingGames (delete (id match_)) st3 in
  let st5 := setError None (setUpdatingMatchId (Some (id match_)) st4) in
  Some (st5, PATCH_match bid (id match_) (set_winner winnerTeamId games)).

(** The whole handler, given the outcome of the PATCH and, should the
    handler reload, of the GET. *)
Definition handleSetWinner (env : Env) (st : State) (match_ : Match)
    (team : Side) (patched : Outcome unit) (reload : Outcome BracketResponse)
    : State * list Request :=
  match handleSetWinner_local env st match_ team with
  | None => (st, [])
  | Some (st1, req) =>
    match patched with
    | Resolved _ => (setUpdatingMatchId None st1, [req])
    | Rejected msg =>
      let '(st2, reqs) :=
        recover env msg "Failed to update match" reload st1 in
      (setUpdatingMatchId None st2, req :: reqs)
    end
  end.

(** ** Undo *)

Definition handleUndo_local (env : Env) (st : State) (match_ : Match)
    : option (State * Request) :=
  bid ← truthy (bracketId env);
  _ ← matches st;
  guard (isAdmin env && isMasterBracket st = true);;
  let st1 :=
    setMatches (updateMatchInState (id match_) (with_prediction None None))
      st in
  let st2 := setPendingGames (delete (id match_)) st1 in
  let st3 := setError None (setUpdatingMatchId (Some (id match_)) st2) in
  Some (st3, PATCH_match bid (id match_) undo).

Definition handleUndo (env : Env) (st : State) (match_ : Match)
    (patched : Outcome unit) (reload : Outcome BracketResponse)
    : State * list Request :=
  match handleUndo_local env st match_ with
  | None => (st, [])
  | Some (st1, req) =>
    let '(st2, reqs) :=
      match patched with
      | Resolved _ => loadBracket env true reload st1
      | Rejected msg => recover env msg "Failed to undo prediction" reload st1
      end in
    (setUpdatingMatchId None st2, req :: reqs)
  end.

(** ** Selecting the number of games *)

(** [handleSelectGames] up to its [await patch(...)].  The request is
    [None] when the handler returns before sending one. *)
Definition handleSelectGames_local (env : Env) (st : State) (match_ : Match)
    (gamesValue : Z) : State * option Request :=
  match truthy (bracketId env), matches st, canEdit env st with
  | Some bid, Some _, true =>
    if bool_decide (round match_ = 0%Z) then (st, None)
    else
      match truthy (predicted_winner match_) with
      | None =>
        (setPendingGames (λ prev, <[id match_ := gamesValue]> prev) st, None)
      | Some winner =>
        let st1 :=
          setMatches
            (updateMatchInState (id match_)
               (λ m, with_prediction (predicted_winner m) (Some gamesValue) m))
            st in
        let st2 := setError None (setUpdatingMatchId (Some (id match_)) st1) in
        (st2, Some (PATCH_match bid (id match_) (set_winner winner gamesValue)))
      end
  | _, _, _ => (st, None)
  end.

Definition handleSelectGames (env : Env) (st : State) (match_ : Match)
    (gamesValue : Z) (patched : Outcome unit)
    (reload : Outcome BracketResponse) : State * list Request :=
  match handleSelectGames_local env st match_ gamesValue with
  | (st1, None) => (st1, [])
  | (st1, Some req) =>
    match patched with
    | Resolved _ => (setUpdatingMatchId None st1, [req])
    | Rejected msg =>
      let '(st2, reqs) :=
        recover env msg "Failed to update games" reload st1 in
      (setUpdatingMatchId None st2, req :: reqs)
    end
  end.

(** ** Derived data and saving *)

(** One iteration of the innermost loop of [allDecided]: [false] is the
    early [return false], [true] is going on to the next match. *)
Definition match_decided (m : Match) : bool :=
  match truthy (team_a m), truthy (team_b m) with
  | Some _, Some _ =>
    match truthy (predicted_winner m) with
    | None => false
    | Some _ =>
      negb (bool_decide (0 < round m)%Z
            && bool_decide (predicted_winner_games m = None))
    end
  | _, _ => true
  end.

Definition allDecided (matches_ : option MatchesByConfRound) : bool :=
  match matches_ with
  | None => false
  | Some g =>
    if bool_decide (length (map_to_list g).*1 = 0) then false
    else
      forallb
        (λ '(_, roundsObj),
           forallb (λ '(_, roundMatches), forallb match_decided roundMatches)
             (map_to_list (roundsObj : gmap string (list Match))))
        (map_to_list g)
  end.

(** White space removed by [String.prototype.trim], as far as it lies in
    ASCII: tab, line feed, vertical tab, form feed, carriage return and
    space. *)
Definition is_white_space (c : Ascii.ascii) : bool :=
  let n := Ascii.nat_of_ascii c in
  (9 <=? n)%nat && (n <=? 13)%nat || (n =? 32)%nat.

(** A string is the UTF-8 encoding of the JavaScript string.  The white
    space [String.prototype.trim] removes beyond ASCII (the rest of
    WhiteSpace and LineTerminator of ECMAScript), by its bytes:
    U+00A0 is C2 A0. *)
Definition is_white_space2 (c1 c2 : Ascii.ascii) : bool :=
  (Ascii.nat_of_ascii c1 =? 194)%nat && (Ascii.nat_of_ascii c2 =? 160)%nat.

(** U+1680 is E1 9A 80; U+2000 to U+200A are E2 80 80 to E2 80 8A; U+2028,
    U+2029 and U+202F are E2 80 A8, E2 80 A9 and E2 80 AF; U+205F is
    E2 81 9F; U+3000 is E3 80 80; U+FEFF is EF BB BF. *)
Definition is_white_space3 (c1 c2 c3 : Ascii.ascii) : bool :=
  let n1 := Ascii.nat_of_ascii c1 in
  let n2 := Ascii.nat_of_ascii c2 in
  let n3 := Ascii.nat_of_ascii c3 in
  (n1 =? 225)%nat && (n2 =? 154)%nat && (n3 =? 128)%nat
  || (n1 =? 226)%nat && (n2 =? 128)%nat
     && ((128 <=? n3)%nat && (n3 <=? 138)%nat
         || (n3 =? 168)%nat || (n3 =? 169)%nat || (n3 =? 175)%nat)
  || (n1 =? 226)%nat && (n2 =? 129)%nat && (n3 =? 159)%nat
  || (n1 =? 227)%nat && (n2 =? 128)%nat && (n3 =? 128)%nat
  || (n1 =? 239)%nat && (n2 =? 187)%nat && (n3 =? 191)%nat.

(** Dropping the white space a string starts with. *)
Fixpoint trim_start (s : string) : string :=
  match s with
  | String c1 s1 =>
    if is_white_space c1 then trim_start s1
    else
      match s1 with
      | String c2 s2 =>
        if is_white_space2 c1 c2 then trim_start s2
        else
          match s2 with
          | String c3 s3 =>
            if is_white_space3 c1 c2 c3 then trim_start s3 else s
          | EmptyString => s
          end
      | EmptyString => s
      end
  | EmptyString => EmptyString
  end.

(** The same on the reversed string, where the bytes of a character come
    last byte first: dropping the white space a string ends with. *)
Fixpoint trim_start_reversed (s : string) : string :=
  match s with
  | String c1 s1 =>
    if is_white_space c1 then trim_start_reversed s1
    else
      match s1 with
      | String c2 s2 =>
        if is_white_space2 c2 c1 then trim_start_reversed s2
        else
          match s2 with
          | String c3 s3 =>
            if is_white_space3 c3 c2 c1 then trim_start_reversed s3 else s
          | EmptyString => s
          end
      | EmptyString => s
      end
  | EmptyString => EmptyString
  end.

Definition trim (s : string) : string :=
  String.rev (trim_start_reversed (String.rev (trim_start s))).

Definition trimmedName (st : State) : string := trim (bracketName st).

Definition canSave (env : Env) (st : State) : bool :=
  canEdit env st && allDecided (matches st)
  && negb (bool_decide (trimmedName st = ""))
  && negb (saving st) && negb (savingLockedForUser env st).

(** [{ ...prev, name: res?.name ?? nameToSave,
       saved_at: res?.saved_at ?? prev.saved_at, is_done: true }] *)
Definition mark_saved (res : SaveResponse) (nameToSave : string)
    (prev : Bracket) : Bracket :=
  {| bracket_ident := bracket_ident prev; user_id := user_id prev;
     is_done := true; deleted_at := deleted_at prev;
     saved_at := match res_saved_at res with
                 | Some t => Some t
                 | None => saved_at prev
                 end;
     name := Some (default nameToSave (res_name res));
     is_owner := is_owner prev; is_master := is_master prev;
     isMaster := isMaster prev |}.

(** [handleSaveBracket]; the timer that hides the save message four
    seconds later is outside the model. *)
Definition handleSaveBracket (env : Env) (st : State)
    (patched : Outcome SaveResponse) : State * list Request :=
  match truthy (bracketId env) with
  | None => (st, [])
  | Some bid =>
    if negb (canSave env st) then (st, [])
    else if savingLockedForUser env st
    then (setError (Some "Brackets are locked; you can no longer save.") st,
          [])
    else
      let nameToSave := trimmedName st in
      if bool_decide (nameToSave = "")
      then (setError (Some "Please enter a bracket name before saving.") st,
            [])
      else
        let st1 := setError None (setSaveMessage None (setSaving true st)) in
        let st2 :=
          match patched with
          | Resolved res =>
            setSaveMessage (Some "Bracket saved!")
              (setBracket (mark_saved res nameToSave <$> bracket st1) st1)
          | Rejected msg =>
            setError (Some (orElse msg "Failed to save bracket")) st1
          end in
        (setSaving false st2, [PATCH_save bid nameToSave])
  end.

(** ** Positions in the graph *)

(** A position: conference key, round key, index in the round's array. *)
Definition Pos : Type := string * string * nat.

Definition match_at (g : MatchesByConfRound) (p : Pos) : option Match :=
  let '(conf, roundKey, i) := p in
  rounds ← g !! conf;
  ms ← (rounds : gmap string (list Match)) !! roundKey;
  (ms : list Match) !! i.

(** All matches of the graph with their positions. *)
Definition graph_entries (g : MatchesByConfRound) : list (Pos * Match) :=
  '(conf, rounds) ← map_to_list g;
  '(roundKey, ms) ← map_to_list (rounds : gmap string (list Match));
  imap (λ i m, ((conf, roundKey, i), m)) ms.

(** Match ids identify matches: no two positions hold the same id. *)
Definition unique_ids (g : MatchesByConfRound) : Prop :=
  ∀ p q m1 m2,
    match_at g p = Some m1 → match_at g q = Some m2 →
    id m1 = id m2 → p = q.

Definition unique_idsb (g : MatchesByConfRound) : bool :=
  bool_decide (NoDup ((id ∘ snd) <$> graph_entries g)).

(** The forward link of a match does not point at the match itself (the
    bracket graph is acyclic). *)
Definition no_self_link (m : Match) : Prop :=
  truthyJs (next_match_id m) ≠ Some (id m).

(** Both participants of a match are assigned. *)
Definition has_teams (m : Match) : Prop :=
  is_Some (truthy (team_a m)) ∧ is_Some (truthy (team_b m)).

(** The team reference on a side. *)
Definition team_of (s : Side) (m : Match) : option string :=
  tf_team (side_fields s m).

(** The forward link of a match, when both of its parts are set. *)
Definition forward_link (m : Match) : option (string * NextSlot) :=
  match truthyJs (next_match_id m), next_slot m with
  | Some nextId, Val ns => Some (nextId, ns)
  | _, _ => None
  end.

(** The id the play-in rule writes to: the game-3 match found for a
    round-0, slot-2 match. *)
Definition playin_target (g : MatchesByConfRound) (m : Match)
    : option string :=
  if bool_decide (round m = 0%Z) && bool_decide (slot m = 2%Z)
  then id <$> find_game3 g (conference m)
  else None.

(** What the three queued updates of [handleSetWinner] do to one match
    node [t] of the graph, in the order they are queued. *)
Definition pick_step (match_ : Match) (winnerTeamId : string) (games : Z)
    (t : Match) : Match :=
  update_if (id match_) (with_prediction (Some winnerTeamId) (Some games)) t.

Definition forward_step (match_ : Match) (winnerSide : Side)
    (winnerTeamId : string) (t : Match) : Match :=
  match forward_link match_ with
  | Some (nextId, ns) =>
    update_if nextId
      (write_slot (destSlotLetter ns)
         (copied_fields winnerSide winnerTeamId match_)) t
  | None => t
  end.

Definition playin_step (g : MatchesByConfRound) (match_ : Match)
    (loserSide : Side) (loserTeamId : string) (t : Match) : Match :=
  match playin_target g match_ with
  | Some game3Id =>
    update_if game3Id
      (write_slot B (copied_fields loserSide loserTeamId match_)) t
  | None => t
  end.

Definition winner_steps (g : MatchesByConfRound) (pending_ : gmap string Z)
    (match_ : Match) (team : Side) (winnerTeamId loserTeamId : string)
    (t : Match) : Match :=
  playin_step g match_ (other_side team) loserTeamId
    (forward_step match_ team winnerTeamId
       (pick_step match_ winnerTeamId
          (winner_games pending_ match_ winnerTeamId) t)).

(** ** A sample bracket

    The eastern play-in round and the series it feeds, as the backend
    sends them; used to run the handlers on concrete input. *)

Definition team_name (t : option string) : JsOpt string :=
  match t with
  | Some code => Val ("Team " +:+ code)
  | None => Null
  end.

Definition team_code (t : option string) : JsOpt string :=
  match t with
  | Some code => Val code
  | None => Null
  end.

Definition team_color (t : option string) : JsOpt string :=
  match t with
  | Some code => Val ("#" +:+ code)
  | None => Undefined
  end.

Definition sample_match (i : string) (r s : Z) (ta tb pw : option string)
    (pwg : option Z) (nid : JsOpt string) (ns : JsOpt NextSlot) : Match :=
  {| id := i; bracket_id := "bracket-1"; conference := "east";
     round := r; slot := s; team_a := ta; team_b := tb;
     predicted_winner := pw; predicted_winner_games := pwg;
     next_match_id := nid; next_slot := ns;
     team_a_name := team_name ta; team_b_name := team_name tb;
     team_a_code := team_code ta; team_b_code := team_code tb;
     team_a_logo_url := Undefined; team_b_logo_url := Undefined;
     team_a_primary_color := team_color ta;
     team_a_secondary_color := Null;
     team_b_primary_color := team_color tb;
     team_b_secondary_color := Null |}.

Definition playin1 : Match :=
  sample_match "e-p1" 0 1 (Some "CHI") (Some "ATL") None None
    (Val "e-p3") (Val slot_a).

Definition playin2 : Match :=
  sample_match "e-p2" 0 2 (Some "MIA") (Some "PHI") None None
    (Val "e-r1-5") (Val slot_b).

Definition playin3 : Match :=
  sample_match "e-p3" 0 3 (Some "CHI") (Some "ORL") (Some "ORL") (Some 1%Z)
    (Val "e-r1-4") (Val slot_b).

Definition series4 : Match :=
  sample_match "e-r1-4" 1 4 (Some "BOS") None None None
    (Val "e-r2-8") (Val slot_a).

Definition series5 : Match :=
  sample_match "e-r1-5" 1 5 (Some "NYK") (Some "ORL") (Some "NYK") (Some 6%Z)
    (Val "e-r2-9") (Val slot_a).

Definition series6 : Match :=
  sample_match "e-r1-6" 1 6 (Some "CLE") (Some "IND") None None
    (Val "e-r2-9") (Val slot_b).

Definition semi9 : Match :=
  sample_match "e-r2-9" 2 9 (Some "NYK") (Some "DET") (Some "DET") (Some 7%Z)
    Null Null.

Definition sample_graph : MatchesByConfRound :=
  {[ "east" := {[ "0" := [playin1; playin2; playin3];
                  "1" := [series4; series5; series6];
                  "2" := [semi9] ]} ]}.

Definition sample_bracket : Bracket :=
  {| bracket_ident := "bracket-1"; user_id := "user-1"; is_done := false;
     deleted_at := None; saved_at := None; name := Some "My bracket";
     is_owner := Some true; is_master := None; isMaster := None |}.

Definition sample_state_of (g : MatchesByConfRound) : State :=
  {| bracket := Some sample_bracket; matches := Some g;
     loading := false; saving := false; updatingMatchId := None;
     error := None; bracketName := "My bracket"; saveMessage := None;
     playoffsLocked := false; pendingGames := {[ "e-r1-6" := 6%Z ]} |}.

Definition sample_state : State := sample_state_of sample_graph.

Definition sample_env : Env :=
  {| bracketId := Some "bracket-1"; user_is_admin := false |}.

(** The master bracket seen by an admin. *)
Definition master_state : State :=
  setBracket
    (Some {| bracket_ident := "bracket-0"; user_id := "user-0";
             is_done := false; deleted_at := None; saved_at := None;
             name := Some "Master"; is_owner := Some false;
             is_master := Some true; isMaster := None |})
    sample_state.

Definition admin_env : Env :=
  {| bracketId := Some "bracket-0"; user_is_admin := true |}.

(** What the backend holds: the graph a reload returns. *)
Definition server_response : BracketResponse :=
  {| resp_bracket := sample_bracket; resp_matches := sample_graph |}.

(** Two variants of the sample play-in round: the slot-2 match without a
    forward link, and the slot-2 match linked to team B of game 3. *)
Definition playin2_unlinked : Match :=
  sample_match "e-p2" 0 2 (Some "MIA") (Some "PHI") None None Null Null.

Definition playin2_to_game3 : Match :=
  sample_match "e-p2" 0 2 (Some "MIA") (Some "PHI") None None
    (Val "e-p3") (Val slot_b).

Definition unlinked_graph : MatchesByConfRound :=
  {[ "east" := {[ "0" := [playin1; playin2_unlinked; playin3] ]} ]}.

Definition crossed_graph : MatchesByConfRound :=
  {[ "east" := {[ "0" := [playin1; playin2_to_game3; playin3] ]} ]}.

(** The node at a position once a handler has reached its [await]. *)
Definition node_after (r : option (State * Request)) (p : Pos)
    : option Match :=
  '(st1, _) ← r;
  g1 ← matches st1;
  match_at (g1 : MatchesByConfRound) p.

(** A graph in which the only undecided match lacks a participant. *)
Definition decided_graph : MatchesByConfRound :=
  {[ "east" := {[ "0" := [sample_match "e-p1" 0 1 (Some "CHI") (Some "ATL")
                            (Some "ATL") None (Val "e-p3") (Val slot_a)];
                  "1" := [series4; series5] ]} ]}.

(** ** What a match card shows *)

(** [m.team_a_name || match.team_a || "TBD"], and the same for side B. *)
Definition getTeamName (match_ : Match) (side : Side) : string :=
  match truthyJs (tf_name (side_fields side match_)) with
  | Some n => n
  | None =>
    match truthy (tf_team (side_fields side match_)) with
    | Some t => t
    | None => "TBD"
    end
  end.

(** [{ primary?: string; secondary?: string }] *)
Record TeamColors : Type := {
  primary : option string;
  secondary : option string
}.

(** [m.team_a_primary_color || undefined], ... *)
Definition getTeamColors (match_ : Match) (side : Side) : TeamColors :=
  {| primary := truthyJs (tf_primary_color (side_fields side match_));
     secondary := truthyJs (tf_secondary_color (side_fields side match_)) |}.

(** The properties of [React.CSSProperties] that [buildWinnerStyle] sets;
    [None] is a property that is not set. *)
Record CSSProperties : Type := {
  borderWidth : option Z;
  borderStyle : option string;
  borderColor : option string;
  backgroundImage : option string;
  backgroundOrigin : option string;
  backgroundClip : option string;
  backgroundColor : option string
}.

Definition innerBg : string := "rgba(15, 23, 42, 0.9)".

(** [None] is [undefined]: no style for a side that is not the winner. *)
Definition buildWinnerStyle (isWinner : bool) (match_ : Match) (side : Side)
    : option CSSProperties :=
  if negb isWinner then None
  else
    let colors := getTeamColors match_ side in
    match primary colors, secondary colors with
    | Some p, Some s =>
      Some {| borderWidth := Some 2%Z; borderStyle := Some "solid";
              borderColor := Some "transparent";
              backgroundImage :=
                Some ("linear-gradient(" +:+ innerBg +:+ ", " +:+ innerBg
                      +:+ "), linear-gradient(90deg, " +:+ p +:+ ", " +:+ s
                      +:+ ")");
              backgroundOrigin := Some "border-box";
              backgroundClip := Some "padding-box, border-box";
              backgroundColor := None |}
    | Some highlight, None | None, Some highlight =>
      Some {| borderWidth := Some 2%Z; borderStyle := Some "solid";
              borderColor := Some highlight;
              backgroundImage := None; backgroundOrigin := None;
              backgroundClip := None;
              backgroundColor := Some "rgba(15, 23, 42, 0.9)" |}
    | None, None =>
      Some {| borderWidth := None; borderStyle := None; borderColor := None;
              backgroundImage := None; backgroundOrigin := None;
              backgroundClip := None; backgroundColor := None |}
    end.

(** [hasTeams = m.team_a && m.team_b], as a condition. *)
Definition hasTeams (m : Match) : bool :=
  bool_decide (is_Some (truthy (team_a m)))
  && bool_decide (is_Some (truthy (team_b m))).

(** [isWinnerA = winner && winner === m.team_a], and [isWinnerB], as
    passed on through [!!]. *)
Definition isWinner (m : Match) (side : Side) : bool :=
  match truthy (predicted_winner m) with
  | Some winner => bool_decide (Some winner = tf_team (side_fields side m))
  | None => false
  end.

(** [selectedGames = m.predicted_winner_games ?? pendingGames[m.id] ?? null] *)
Definition selectedGames (st : State) (m : Match) : option Z :=
  match predicted_winner_games m with
  | Some n => Some n
  | None => pendingGames st !! id m
  end.

(** The [value] of the games selector: [selectedGames ?? 4]. *)
Definition select_value (st : State) (m : Match) : Z :=
  default 4%Z (selectedGames st m).

(** The bracket grid is rendered: the component got past
    [if (!bracketId) return ...] and [!loading && !error && matches]. *)
Definition grid_rendered (env : Env) (st : State) : bool :=
  bool_decide (is_Some (truthy (bracketId env)))
  && negb (loading st)
  && bool_decide (truthy (error st) = None)
  && bool_decide (is_Some (matches st)).

(** A team button carries an [onClick]: [hasTeams && canEdit]. *)
Definition team_button_clickable (env : Env) (st : State) (m : Match)
    : bool :=
  hasTeams m && canEdit env st.

(** [disabled={!hasTeams || !canEdit || isUpdating}] *)
Definition team_button_disabled (env : Env) (st : State) (m : Match)
    : bool :=
  negb (hasTeams m) || negb (canEdit env st)
  || bool_decide (updatingMatchId st = Some (id m)).

(** [UndoButton] renders a button: [isAdmin && isMaster && hasPick]. *)
Definition undo_button_shown (env : Env) (st : State) (m : Match) : bool :=
  isAdmin env && isMasterBracket st
  && bool_decide (is_Some (truthy (predicted_winner m))).

(** What [GamesBadge] renders: the number in the badge, or nothing. *)
Definition GamesBadge (match_ : Match) (selectedGames_ : option Z)
    : option Z :=
  match truthy (team_a match_), truthy (team_b match_) with
  | Some _, Some _ =>
    match truthy (predicted_winner match_) with
    | None => None
    | Some _ =>
      if bool_decide (round match_ = 0%Z) then None else selectedGames_
    end
  | _, _ => None
  end.

(** ** Layout *)

Definition getGridRowForMatch (round_ matchIndex matchSlot : Z) : Z :=
  if bool_decide (round_ = 0%Z) then
    if bool_decide (matchSlot = 1%Z) then 2%Z
    else if bool_decide (matchSlot = 2%Z) then 3%Z
    else if bool_decide (matchSlot = 3%Z) then 4%Z
    else (2 + matchIndex)%Z
  else if bool_decide (round_ = 1%Z) then
    if bool_decide (matchSlot = 4%Z) then 2%Z
    else if bool_decide (matchSlot = 7%Z) then 4%Z
    else if bool_decide (matchSlot = 6%Z) then 6%Z
    else if bool_decide (matchSlot = 5%Z) then 8%Z
    else (2 + matchIndex * 2)%Z
  else if bool_decide (round_ = 2%Z) then
    if bool_decide (matchSlot = 8%Z) then 7%Z else 3%Z
  else if bool_decide (round_ = 3%Z) then 5%Z
  else 5%Z.

(** The calls [addVerticalPair(conf, round1, slot1, round2, slot2,
    destRound, destSlot)] of [computeLines], the same for both
    conferences: two matches joined by a vertical line, and the match the
    pair feeds. *)
Definition vertical_pairs : list ((Z * Z) * (Z * Z) * (Z * Z)) :=
  [ ((1, 4), (1, 7), (2, 9));
    ((1, 6), (1, 5), (2, 8));
    ((2, 8), (2, 9), (3, 10)) ]%Z.

(** ** The name of the exported image *)

(** A character of the class [[\w-]]: a letter, a digit, [_] or [-]. *)
Definition is_word_or_dash (c : Ascii.ascii) : bool :=
  let n := Ascii.nat_of_ascii c in
  (48 <=? n)%nat && (n <=? 57)%nat
  || (65 <=? n)%nat && (n <=? 90)%nat
  || (97 <=? n)%nat && (n <=? 122)%nat
  || (n =? 95)%nat || (n =? 45)%nat.

Definition underscore : Ascii.ascii := Ascii.ascii_of_nat 95.

(** [s.replace(/[^\w-]+/g, "_")]: every maximal run of other characters
    becomes one underscore.  [in_run] says that the run the scan is in has
    been replaced already. *)
Fixpoint replace_runs (in_run : bool) (s : string) : string :=
  match s with
  | EmptyString => EmptyString
  | String c s' =>
    if is_word_or_dash c then String c (replace_runs false s')
    else if in_run then replace_runs true s'
    else String underscore (replace_runs true s')
  end.

Definition safe_name (raw : string) : string := replace_runs false raw.


(** ** What every update keeps of a match *)

(** The identity, the place and the links of a match. *)
Definition skeleton (m : Match)
    : string * string * string * Z * Z * JsOpt string * JsOpt NextSlot :=
  (id m, bracket_id m, conference m, round m, slot m, next_match_id m,
   next_slot m).

(** A handler kept the skeleton of the graph: the same positions hold
    matches, each with the skeleton it had. *)
Definition keeps_skeleton (st st1 : State) : Prop :=
  ∀ g : MatchesByConfRound,
    matches st = Some g →
    ∃ g1 : MatchesByConfRound,
      matches st1 = Some g1
      ∧ (∀ q, skeleton <$> match_at g1 q = skeleton <$> match_at g q)
      ∧ (unique_ids g → unique_ids g1).

(** The slots [getGridRowForMatch] and [computeLines] name: 1 to 3 in the
    play-in, 4 to 7 in round 1, 8 and 9 in round 2, 10 in round 3. *)
Definition laid_out_slot (round_ slot_ : Z) : Prop :=
  (round_ = 0 ∧ 1 ≤ slot_ ≤ 3)%Z ∨ (round_ = 1 ∧ 4 ≤ slot_ ≤ 7)%Z
  ∨ (round_ = 2 ∧ 8 ≤ slot_ ≤ 9)%Z ∨ (round_ = 3 ∧ slot_ = 10)%Z.

(** NO-BREAK SPACE (U+00A0), which [trim] removes like a space. *)
Definition nbsp : string :=
  String (Ascii.ascii_of_nat 194) (String (Ascii.ascii_of_nat 160) "").

(** The completed sample bracket with a name typed with a leading space
    and a trailing NO-BREAK SPACE. *)
Definition padded_name_state : State :=
  setBracketName (" My bracket" +:+ nbsp) (sample_state_of decided_graph).

(** * Properties *)

(** ** The graph under [graph_map] *)

Lemma match_at_graph_map (f : Match → Match) (g : MatchesByConfRound)
    (p : Pos) :
  match_at (graph_map f g) p = f <$> match_at g p.
Proof.
  destruct p as [[conf roundKey] i]. unfold match_at, graph_map.
  rewrite lookup_fmap. destruct (g !! conf) as [rounds|]; simpl; [|done].
  rewrite lookup_fmap. destruct (rounds !! roundKey) as [ms|]; simpl; [|done].
  apply list_lookup_fmap.
Qed.

Lemma graph_map_ext (f1 f2 : Match → Match) (g : MatchesByConfRound) :
  (∀ p m, match_at g p = Some m → f1 m = f2 m) →
  graph_map f1 g = graph_map f2 g.
Proof.
  intros Hext. unfold graph_map.
  apply map_fmap_ext. intros conf rounds Hconf.
  apply map_fmap_ext. intros roundKey ms Hround.
  apply list_fmap_ext. intros i m Hi.
  apply (Hext (conf, roundKey, i)). unfold match_at.
  rewrite Hconf. simpl. rewrite Hround. simpl. exact Hi.
Qed.

Lemma graph_map_compose (f1 f2 : Match → Match) (g : MatchesByConfRound) :
  graph_map f2 (graph_map f1 g) = graph_map (f2 ∘ f1) g.
Proof.
  unfold graph_map. rewrite <- map_fmap_compose.
  apply map_fmap_ext. intros conf rounds _. simpl.
  rewrite <- map_fmap_compose.
  apply map_fmap_ext. intros roundKey ms _. simpl.
  by rewrite <- list_fmap_compose.
Qed.

Lemma graph_map_id (g : MatchesByConfRound) : graph_map (λ m, m) g = g.
Proof.
  unfold graph_map.
  rewrite <- (map_fmap_id g) at 2. apply map_fmap_ext. intros conf rounds _.
  rewrite <- (map_fmap_id rounds) at 2. apply map_fmap_ext.
  intros roundKey ms _. apply list_fmap_id.
Qed.

(** ** The queued updates as node-wise steps *)

Lemma truthy_Some (o : option string) (s : string) :
  truthy o = Some s ↔ o = Some s ∧ s ≠ "".
Proof.
  unfold truthy. destruct o as [s'|]; [|by split; [|intros []]].
  case_bool_decide as Hs; split; try done.
  - intros [[= ->] Hne]. contradiction.
  - intros [= ->]. done.
  - by intros [-> _].
Qed.

Lemma update_if_id (k : string) (f : Match → Match) (t : Match) :
  (∀ m, id (f m) = id m) → id (update_if k f t) = id t.
Proof. intros Hf. unfold update_if. case_bool_decide; [apply Hf | done]. Qed.

Lemma updateNextMatchSlotInState_steps match_ winnerSide winnerTeamId
    (g : MatchesByConfRound) :
  updateNextMatchSlotInState match_ winnerSide winnerTeamId (Some g)
  = Some (graph_map (forward_step match_ winnerSide winnerTeamId) g).
Proof.
  unfold updateNextMatchSlotInState, forward_step, forward_link.
  destruct (truthyJs (next_match_id match_)) as [nextId|];
    [destruct (next_slot match_) as [| |ns]|]; simpl;
    first [done | by rewrite graph_map_id].
Qed.

Lemma updatePlayInGame3LoserInState_steps (g0 : MatchesByConfRound) match_
    loserSide loserTeamId (g : MatchesByConfRound) :
  updatePlayInGame3LoserInState (Some g0) match_ loserSide loserTeamId
    (Some g)
  = Some (graph_map (playin_step g0 match_ loserSide loserTeamId) g).
Proof.
  unfold updatePlayInGame3LoserInState, playin_step, playin_target. simpl.
  repeat case_bool_decide; simpl; try contradiction;
    try by rewrite graph_map_id.
  destruct (find_game3 g0 (conference match_)) as [game3|]; simpl;
    [done | by rewrite graph_map_id].
Qed.

(** The state [handleSetWinner] is in when it awaits the PATCH. *)
Lemma handleSetWinner_local_eq env st (g : MatchesByConfRound) match_ team
    bid ta tb :
  truthy (bracketId env) = Some bid →
  matches st = Some g →
  canEdit env st = true →
  truthy (team_a match_) = Some ta →
  truthy (team_b match_) = Some tb →
  let W := match team with A => ta | B => tb end in
  let L := match team with A => tb | B => ta end in
  handleSetWinner_local env st match_ team
  = Some
      (setError None
         (setUpdatingMatchId (Some (id match_))
            (setPendingGames (delete (id match_))
               (setMatches
                  (λ _, Some (graph_map
                                (winner_steps g (pendingGames st) match_ team
                                   W L) g)) st))),
       PATCH_match bid (id match_)
         (set_winner W (winner_games (pendingGames st) match_ W))).
Proof.
  intros Hbid Hg Hedit Ha Hb W L. unfold handleSetWinner_local.
  rewrite Hbid, Hg, Ha, Hb. simpl. rewrite option_guard_True by done. simpl.
  do 2 f_equal. unfold setMatches at 1 2 3 4. simpl. rewrite Hg.
  unfold updateMatchInState at 1.
  rewrite updateNextMatchSlotInState_steps.
  rewrite updatePlayInGame3LoserInState_steps.
  rewrite !graph_map_compose. reflexivity.
Qed.

(** ** Positions and identifiers *)

Lemma match_at_entries (g : MatchesByConfRound) (p : Pos) (m : Match) :
  match_at g p = Some m → (p, m) ∈ graph_entries g.
Proof.
  destruct p as [[conf roundKey] i]. unfold match_at, graph_entries.
  destruct (g !! conf) as [rounds|] eqn:Hconf; simpl; [|done].
  destruct (rounds !! roundKey) as [ms|] eqn:Hround; simpl; [|done].
  intros Hi. apply list_elem_of_bind. exists (conf, rounds). split.
  - apply list_elem_of_bind. exists (roundKey, ms). split.
    + by apply (elem_of_lookup_imap_2 (λ i m, (conf, roundKey, i, m))).
    + by apply elem_of_map_to_list.
  - by apply elem_of_map_to_list.
Qed.

Lemma NoDup_fmap_eq {X Y} (f : X → Y) (l : list X) (x y : X) :
  NoDup (f <$> l) → x ∈ l → y ∈ l → f x = f y → x = y.
Proof.
  induction l as [|z l IH]; simpl; [by intros _ ?%elem_of_nil|].
  intros [Hz Hl]%NoDup_cons Hx Hy Hxy.
  apply elem_of_cons in Hx as [->|Hx]; apply elem_of_cons in Hy as [->|Hy].
  - done.
  - destruct Hz. rewrite Hxy. by apply list_elem_of_fmap_2.
  - destruct Hz. rewrite <- Hxy. by apply list_elem_of_fmap_2.
  - by apply IH.
Qed.

Lemma unique_idsb_sound (g : MatchesByConfRound) :
  unique_idsb g = true → unique_ids g.
Proof.
  unfold unique_idsb. intros Hnd%bool_decide_eq_true p q m1 m2 Hp Hq Hid.
  apply match_at_entries in Hp, Hq.
  by pose proof (NoDup_fmap_eq _ _ _ _ Hnd Hp Hq Hid) as [= -> _].
Qed.

Lemma unique_ids_same (g : MatchesByConfRound) p q m1 m2 :
  unique_ids g → match_at g p = Some m1 → match_at g q = Some m2 →
  id m1 = id m2 → m1 = m2.
Proof.
  intros Hu Hp Hq Hid. pose proof (Hu _ _ _ _ Hp Hq Hid) as ->. congruence.
Qed.

(** [find] returns an element of the array that satisfies the test. *)
Lemma find_game3_at (g : MatchesByConfRound) (conf : string) (game3 : Match) :
  find_game3 g conf = Some game3 →
  round game3 = 0%Z ∧ slot game3 = 3%Z
  ∧ ∃ i, match_at g (conf, "0", i) = Some game3.
Proof.
  unfold find_game3, match_at.
  destruct (g !! conf) as [rounds|]; simpl; [|done].
  destruct (rounds !! "0") as [ms|]; simpl; [|done].
  intros Hfind. pose proof (find_some _ _ Hfind) as [Hin Hgame].
  unfold is_game3 in Hgame. apply andb_prop in Hgame as [Hr Hs].
  apply bool_decide_eq_true in Hr, Hs. repeat split; try done.
  apply list_elem_of_In, list_elem_of_lookup in Hin. exact Hin.
Qed.

(** The match found as game 3 is not the round-0, slot-2 match picked. *)
Lemma playin_target_other (g : MatchesByConfRound) p match_ k :
  unique_ids g → match_at g p = Some match_ →
  playin_target g match_ = Some k → k ≠ id match_.
Proof.
  intros Hu Hp. unfold playin_target.
  destruct (bool_decide (round match_ = 0%Z) && bool_decide (slot match_ = 2%Z))
    eqn:Hrs; [|done].
  apply andb_prop in Hrs as [_ Hs%bool_decide_eq_true].
  destruct (find_game3 g (conference match_)) as [game3|] eqn:Hfind; [|done].
  simpl. intros [= <-] Hid.
  apply find_game3_at in Hfind as (_ & Hs3 & i & Hi).
  pose proof (unique_ids_same _ _ _ _ _ Hu Hi Hp Hid) as ->. lia.
Qed.

(** ** Undo *)

(** C8. [handleUndo] does nothing (no state change, no request) unless the
    user is an admin and the bracket is the master bracket.  When it is
    permitted, its local mutation clears [predicted_winner] and
    [predicted_winner_games] of the match nodes carrying the id of the
    match and changes no other field of them, removes the pending-games
    entry of that id, and leaves every other node as it was: what an
    earlier pick propagated downstream is not reverted. *)
Theorem C8_undo_clears_only_its_match env st match_ :
  (isAdmin env && isMasterBracket st = false →
   ∀ patched reload, handleUndo env st match_ patched reload = (st, []))
  ∧ (∀ bid (g : MatchesByConfRound),
       truthy (bracketId env) = Some bid →
       matches st = Some g →
       isAdmin env && isMasterBracket st = true →
       ∃ st1 (g1 : MatchesByConfRound),
         handleUndo_local env st match_
         = Some (st1, PATCH_match bid (id match_) undo)
         ∧ matches st1 = Some g1
         ∧ pendingGames st1 = delete (id match_) (pendingGames st)
         ∧ pendingGames st1 !! id match_ = None
         ∧ (∀ k, k ≠ id match_ → pendingGames st1 !! k = pendingGames st !! k)
         ∧ (∀ q,
              match_at g1 q
              = update_if (id match_) (with_prediction None None)
                <$> match_at g q)
         ∧ (∀ q, match_at g q = None → match_at g1 q = None)
         ∧ ∀ q t,
             match_at g q = Some t →
             ∃ t',
               match_at g1 q = Some t'
               ∧ (id t ≠ id match_ → t' = t)
               ∧ (id t = id match_ →
                  predicted_winner t' = None
                  ∧ predicted_winner_games t' = None
                  ∧ t' = {| id := id t; bracket_id := bracket_id t;
                           conference := conference t; round := round t; slot := slot t;
                           team_a := team_a t; team_b := team_b t;
                           predicted_winner := None;
                           predicted_winner_games := None;
                           next_match_id := next_match_id t; next_slot := next_slot t;
                           team_a_name := team_a_name t; team_b_name := team_b_name t;
                           team_a_code := team_a_code t; team_b_code := team_b_code t;
                           team_a_logo_url := team_a_logo_url t;
                           team_b_logo_url := team_b_logo_url t;
                           team_a_primary_color := team_a_primary_color t;
                           team_a_secondary_color := team_a_secondary_color t;
                           team_b_primary_color := team_b_primary_color t;
                           team_b_secondary_color := team_b_secondary_color t |})).
Proof.
  split.
  - intros Hperm patched reload. unfold handleUndo, handleUndo_local.
    destruct (truthy (bracketId env)); simpl; [|done].
    destruct (matches st); simpl; [|done].
    rewrite option_guard_False; [done|]. by rewrite Hperm.
  - intros bid g Hbid Hg Hperm. unfold handleUndo_local.
    rewrite Hbid, Hg. simpl. rewrite option_guard_True by done. simpl.
    eexists _, _. split; [reflexivity|]. simpl. rewrite Hg. simpl.
    split; [reflexivity|]. split; [reflexivity|].
    split; [apply lookup_delete_eq|].
    split; [by intros k Hk; apply lookup_delete_ne|].
    split; [intros q; apply match_at_graph_map|].
    split; [by intros q Hq; rewrite match_at_graph_map, Hq|].
    intros q t Hq. rewrite match_at_graph_map, Hq. simpl.
    eexists. split; [reflexivity|]. unfold update_if.
    case_bool_decide; split; done.
Qed.

Lemma C8_undo_witness :
  (isAdmin sample_env && isMasterBracket sample_state = false
   ∧ handleUndo sample_env sample_state series5 (Resolved ())
       (Resolved server_response) = (sample_state, []))
  ∧ (isAdmin admin_env && isMasterBracket master_state = true
     ∧ predicted_winner series5 = Some "NYK"
     ∧ ∃ st1 (g1 : MatchesByConfRound) t5,
         handleUndo_local admin_env master_state series5
         = Some (st1, PATCH_match "bracket-0" (id series5) undo)
         ∧ matches st1 = Some g1
         ∧ pendingGames st1 = delete (id series5) (pendingGames master_state)
         ∧ match_at g1 ("east", "1", 1%nat) = Some t5
         ∧ predicted_winner t5 = None
         ∧ predicted_winner_games t5 = None
         ∧ team_a t5 = Some "NYK" ∧ team_b t5 = Some "ORL"
         ∧ match_at g1 ("east", "2", 0%nat) = Some semi9
         ∧ match_at g1 ("east", "1", 2%nat) = Some series6).
Proof.
  split.
  - split; [reflexivity|].
    apply (proj1 (C8_undo_clears_only_its_match sample_env sample_state
                    series5)).
    reflexivity.
  - split; [reflexivity|]. split; [reflexivity|].
    destruct (proj2 (C8_undo_clears_only_its_match admin_env master_state
                       series5) "bracket-0" sample_graph)
      as (st1 & g1 & Hrun & Hg1 & Hpending & _ & _ & _ & _ & Hnodes);
      [reflexivity | reflexivity | reflexivity |].
    destruct (Hnodes ("east", "1", 1%nat) series5 eq_refl)
      as (t5 & Ht5 & _ & Hcleared).
    destruct (Hcleared eq_refl) as (Hw & Hn & Heq).
    destruct (Hnodes ("east", "2", 0%nat) semi9 eq_refl)
      as (t9 & Ht9 & Hsame9 & _).
    destruct (Hnodes ("east", "1", 2%nat) series6 eq_refl)
      as (t6 & Ht6 & Hsame6 & _).
    exists st1, g1, t5. split; [exact Hrun|]. split; [exact Hg1|].
    split; [exact Hpending|]. split; [exact Ht5|]. split; [exact Hw|].
    split; [exact Hn|].
    split; [by rewrite Heq|]. split; [by rewrite Heq|].
    split.
    + rewrite Ht9. f_equal. apply Hsame9. vm_compute. discriminate.
    + rewrite Ht6. f_equal. apply Hsame6. vm_compute. discriminate.
Defined.

(** ** Selecting the number of games on a decided series *)

(** C10. [handleSelectGames] on a match of a round above 0 whose winner is
    recorded sends a [set_winner] request carrying that winner and the new
    length, and locally changes nothing but [predicted_winner_games] of the
    nodes carrying the id of the match: their [predicted_winner], both
    teams and every other field stay, every other node stays as it was,
    and the pending-games cache is not touched. *)
Theorem C10_set_games_changes_only_games env st (g : MatchesByConfRound)
    match_ gamesValue bid winner :
  truthy (bracketId env) = Some bid →
  matches st = Some g →
  canEdit env st = true →
  (0 < round match_)%Z →
  truthy (predicted_winner match_) = Some winner →
  ∃ st1 (g1 : MatchesByConfRound),
    handleSelectGames_local env st match_ gamesValue
    = (st1, Some (PATCH_match bid (id match_) (set_winner winner gamesValue)))
    ∧ (∀ reload,
         handleSelectGames env st match_ gamesValue (Resolved ()) reload
         = (setUpdatingMatchId None st1,
            [PATCH_match bid (id match_) (set_winner winner gamesValue)]))
    ∧ matches st1 = Some g1
    ∧ pendingGames st1 = pendingGames st
    ∧ (∀ q, match_at g q = None → match_at g1 q = None)
    ∧ ∀ q t,
        match_at g q = Some t →
        ∃ t',
          match_at g1 q = Some t'
          ∧ t' = (if bool_decide (id t = id match_)
                  then with_prediction (predicted_winner t) (Some gamesValue) t
                  else t)
          ∧ predicted_winner t' = predicted_winner t
          ∧ side_fields A t' = side_fields A t
          ∧ side_fields B t' = side_fields B t
          ∧ (id t ≠ id match_ → t' = t)
          ∧ (id t = id match_ →
             predicted_winner_games t' = Some gamesValue
             ∧ t' = {| id := id t; bracket_id := bracket_id t;
                      conference := conference t; round := round t; slot := slot t;
                      team_a := team_a t; team_b := team_b t;
                      predicted_winner := predicted_winner t;
                      predicted_winner_games := Some gamesValue;
                      next_match_id := next_match_id t; next_slot := next_slot t;
                      team_a_name := team_a_name t; team_b_name := team_b_name t;
                      team_a_code := team_a_code t; team_b_code := team_b_code t;
                      team_a_logo_url := team_a_logo_url t;
                      team_b_logo_url := team_b_logo_url t;
                      team_a_primary_color := team_a_primary_color t;
                      team_a_secondary_color := team_a_secondary_color t;
                      team_b_primary_color := team_b_primary_color t;
                      team_b_secondary_color := team_b_secondary_color t |}).
Proof.
  intros Hbid Hg Hedit Hround Hwinner.
  assert (handleSelectGames_local env st match_ gamesValue
          = (setError None
               (setUpdatingMatchId (Some (id match_))
                  (setMatches
                     (updateMatchInState (id match_)
                        (λ m, with_prediction (predicted_winner m)
                                (Some gamesValue) m)) st)),
             Some (PATCH_match bid (id match_) (set_winner winner gamesValue))))
    as Hlocal.
  { unfold handleSelectGames_local. rewrite Hbid, Hg, Hedit, Hwinner.
    rewrite bool_decide_eq_false_2 by lia. reflexivity. }
  eexists _, _. split; [exact Hlocal|].
  split; [by intros reload; unfold handleSelectGames; rewrite Hlocal|].
  simpl. rewrite Hg. simpl. split; [reflexivity|]. split; [reflexivity|].
  split.
  - intros q Hq. by rewrite match_at_graph_map, Hq.
  - intros q t Hq. rewrite match_at_graph_map, Hq. simpl.
    eexists. split; [reflexivity|]. unfold update_if.
    case_bool_decide; repeat split; done.
Qed.

Lemma C10_set_games_witness :
  predicted_winner_games series5 = Some 6%Z
  ∧ ∃ st1 (g1 : MatchesByConfRound) t5,
      handleSelectGames_local sample_env sample_state series5 4
      = (st1, Some (PATCH_match "bracket-1" "e-r1-5" (set_winner "NYK" 4%Z)))
      ∧ matches st1 = Some g1
      ∧ pendingGames st1 = pendingGames sample_state
      ∧ match_at g1 ("east", "1", 1%nat) = Some t5
      ∧ predicted_winner_games t5 = Some 4%Z
      ∧ predicted_winner t5 = Some "NYK"
      ∧ round t5 = 1%Z ∧ next_match_id t5 = Val "e-r2-9"
      ∧ team_a t5 = Some "NYK" ∧ team_b t5 = Some "ORL"
      ∧ match_at g1 ("east", "2", 0%nat) = Some semi9.
Proof.
  split; [reflexivity|].
  destruct (C10_set_games_changes_only_games sample_env sample_state
              sample_graph series5 4 "bracket-1" "NYK")
    as (st1 & g1 & Hlocal & _ & Hg1 & Hpending & _ & Hnodes);
    [reflexivity | reflexivity | reflexivity | reflexivity | reflexivity |].
  destruct (Hnodes ("east", "1", 1%nat) series5 eq_refl)
    as (t5 & Ht5 & _ & _ & _ & _ & _ & Hupdated).
  destruct (Hupdated eq_refl) as [Hgames Heq].
  destruct (Hnodes ("east", "2", 0%nat) semi9 eq_refl)
    as (t9 & Ht9 & _ & _ & _ & _ & Hsame9 & _).
  exists st1, g1, t5. split; [exact Hlocal|]. split; [exact Hg1|].
  split; [exact Hpending|]. split; [exact Ht5|]. split; [exact Hgames|].
  do 5 (split; [by rewrite Heq|]).
  rewrite Ht9. f_equal. apply Hsame9. vm_compute. discriminate.
Defined.

(** ** Setting a winner: what one run does *)

Lemma has_teams_sides (m : Match) (team : Side) :
  has_teams m →
  ∃ ta tb,
    truthy (team_a m) = Some ta ∧ truthy (team_b m) = Some tb
    ∧ team_of team m = Some (match team with A => ta | B => tb end)
    ∧ team_of (other_side team) m
      = Some (match team with A => tb | B => ta end).
Proof.
  intros [[ta Ha] [tb Hb]]. exists ta, tb. split; [done|]. split; [done|].
  apply truthy_Some in Ha as [Ha _]. apply truthy_Some in Hb as [Hb _].
  unfold team_of. by destruct team; simpl.
Qed.

Lemma set_winner_run env st (g : MatchesByConfRound) match_ team bid :
  truthy (bracketId env) = Some bid →
  matches st = Some g →
  canEdit env st = true →
  has_teams match_ →
  ∃ W L st1,
    team_of team match_ = Some W
    ∧ team_of (other_side team) match_ = Some L
    ∧ handleSetWinner_local env st match_ team
      = Some (st1,
              PATCH_match bid (id match_)
                (set_winner W (winner_games (pendingGames st) match_ W)))
    ∧ matches st1
      = Some (graph_map (winner_steps g (pendingGames st) match_ team W L) g)
    ∧ pendingGames st1 = delete (id match_) (pendingGames st)
    ∧ bracket st1 = bracket st.
Proof.
  intros Hbid Hg Hedit Hteams.
  destruct (has_teams_sides match_ team Hteams) as (ta & tb & Ha & Hb & HW & HL).
  eexists _, _, _. split; [exact HW|]. split; [exact HL|].
  split; [by apply handleSetWinner_local_eq|]. done.
Qed.

Lemma with_prediction_id w n m : id (with_prediction w n m) = id m.
Proof. reflexivity. Qed.

Lemma write_slot_id d t m : id (write_slot d t m) = id m.
Proof. by destruct d. Qed.

Lemma side_fields_write_slot d t m : side_fields d (write_slot d t m) = t.
Proof. by destruct d, t. Qed.

Lemma side_fields_write_slot_other d t m :
  side_fields (other_side d) (write_slot d t m) = side_fields (other_side d) m.
Proof. by destruct d. Qed.

Lemma write_slot_prediction d t m :
  predicted_winner (write_slot d t m) = None
  ∧ predicted_winner_games (write_slot d t m) = None.
Proof. by destruct d. Qed.

Lemma slot_fields_explicit (t' src : Match) (d s : Side) (W : string) :
  side_fields d t' = copied_fields s W src →
  match d with
  | A =>
    team_a t' = Some W
    ∧ team_a_name t'
      = orNull (match s with A => team_a_name src | B => team_b_name src end)
    ∧ team_a_code t'
      = orNull (match s with A => team_a_code src | B => team_b_code src end)
    ∧ team_a_logo_url t'
      = orNull (match s with A => team_a_logo_url src | B => team_b_logo_url src end)
    ∧ team_a_primary_color t'
      = orNull (match s with A => team_a_primary_color src | B => team_b_primary_color src end)
    ∧ team_a_secondary_color t'
      = orNull (match s with A => team_a_secondary_color src | B => team_b_secondary_color src end)
  | B =>
    team_b t' = Some W
    ∧ team_b_name t'
      = orNull (match s with A => team_a_name src | B => team_b_name src end)
    ∧ team_b_code t'
      = orNull (match s with A => team_a_code src | B => team_b_code src end)
    ∧ team_b_logo_url t'
      = orNull (match s with A => team_a_logo_url src | B => team_b_logo_url src end)
    ∧ team_b_primary_color t'
      = orNull (match s with A => team_a_primary_color src | B => team_b_primary_color src end)
    ∧ team_b_secondary_color t'
      = orNull (match s with A => team_a_secondary_color src | B => team_b_secondary_color src end)
  end.
Proof.
  intros Hfields. unfold copied_fields in Hfields.
  destruct d, s; simpl in Hfields; injection Hfields;
    intros; by repeat split.
Qed.

Lemma pick_step_id match_ W n t : id (pick_step match_ W n t) = id t.
Proof. apply update_if_id. intros m. apply with_prediction_id. Qed.

Lemma forward_step_id match_ s W t : id (forward_step match_ s W t) = id t.
Proof.
  unfold forward_step. destruct (forward_link match_) as [[nextId ns]|]; [|done].
  apply update_if_id. intros m. apply write_slot_id.
Qed.

Lemma playin_step_id g match_ s L t : id (playin_step g match_ s L t) = id t.
Proof.
  unfold playin_step. destruct (playin_target g match_); [|done].
  apply update_if_id. intros m. apply write_slot_id.
Qed.

Lemma forward_link_target (m : Match) nextId ns :
  forward_link m = Some (nextId, ns) → truthyJs (next_match_id m) = Some nextId.
Proof.
  unfold forward_link. destruct (truthyJs (next_match_id m)); [|done].
  destruct (next_slot m); naive_solver.
Qed.

(** On a graph with unique ids and no self link, the three queued updates
    leave on the picked match exactly the prediction. *)
Lemma winner_steps_picked (g : MatchesByConfRound) pending_ p match_ team W L :
  unique_ids g → match_at g p = Some match_ → no_self_link match_ →
  winner_steps g pending_ match_ team W L match_
  = with_prediction (Some W) (Some (winner_games pending_ match_ W)) match_.
Proof.
  intros Hu Hp Hself. unfold winner_steps, pick_step.
  unfold update_if at 1. rewrite bool_decide_eq_true_2 by done.
  set (m1 := with_prediction _ _ _).
  assert (forward_step match_ team W m1 = m1) as ->.
  { unfold forward_step.
    destruct (forward_link match_) as [[nextId ns]|] eqn:Hlink; [|done].
    apply forward_link_target in Hlink. unfold update_if.
    rewrite bool_decide_eq_false_2; [done|].
    unfold no_self_link in Hself. simpl. congruence. }
  unfold playin_step.
  destruct (playin_target g match_) as [k|] eqn:Hk; [|done].
  unfold update_if. rewrite bool_decide_eq_false_2; [done|].
  pose proof (playin_target_other _ _ _ _ Hu Hp Hk). simpl. congruence.
Qed.

(** ** The recorded winner is a participant *)

(** C3. On a graph whose ids are unique, for a match of the graph that has
    both participants and does not link to itself, the local mutation of
    [handleSetWinner] leaves on that match a [predicted_winner] that is
    the participant on the picked side, hence one of [team_a] and
    [team_b] of the match; and when a participant is missing the handler
    returns at once: the whole state, graph and pending-games cache
    included, is unchanged and no request is sent. *)
Theorem C3_winner_is_a_participant env st match_ team :
  (∀ bid (g : MatchesByConfRound) p,
     truthy (bracketId env) = Some bid →
     matches st = Some g →
     canEdit env st = true →
     unique_ids g →
     match_at g p = Some match_ →
     no_self_link match_ →
     has_teams match_ →
     ∃ st1 req (g1 : MatchesByConfRound) m1,
       handleSetWinner_local env st match_ team = Some (st1, req)
       ∧ matches st1 = Some g1
       ∧ match_at g1 p = Some m1
       ∧ team_a m1 = team_a match_ ∧ team_b m1 = team_b match_
       ∧ is_Some (predicted_winner m1)
       ∧ predicted_winner m1 = team_of team m1
       ∧ (predicted_winner m1 = team_a m1 ∨ predicted_winner m1 = team_b m1))
  ∧ (¬ has_teams match_ →
     ∀ patched reload,
       handleSetWinner env st match_ team patched reload = (st, [])).
Proof.
  split.
  - intros bid g p Hbid Hg Hedit Hu Hp Hself Hteams.
    destruct (set_winner_run env st g match_ team bid Hbid Hg Hedit Hteams)
      as (W & L & st1 & HW & _ & Hrun & Hg1 & _).
    eexists st1, _, _, _. split; [exact Hrun|]. split; [exact Hg1|].
    rewrite match_at_graph_map, Hp. simpl.
    rewrite (winner_steps_picked g _ p) by done.
    split; [reflexivity|]. simpl. repeat split; try done.
    unfold team_of in HW. destruct team; simpl in HW; auto.
  - intros Hteams patched reload. unfold handleSetWinner, handleSetWinner_local.
    destruct (truthy (bracketId env)); simpl; [|done].
    destruct (matches st); simpl; [|done].
    destruct (guard (canEdit env st = true)); simpl; [|done].
    destruct (truthy (team_a match_)) eqn:Ha; simpl; [|done].
    destruct (truthy (team_b match_)) eqn:Hb; simpl; [|done].
    destruct Hteams. split; by eexists.
Qed.

Lemma C3_winner_witness :
  (unique_ids sample_graph
   ∧ match_at sample_graph ("east", "0", 1%nat) = Some playin2
   ∧ no_self_link playin2 ∧ has_teams playin2
   ∧ ∃ st1 req (g1 : MatchesByConfRound) m1,
       handleSetWinner_local sample_env sample_state playin2 A
       = Some (st1, req)
       ∧ matches st1 = Some g1
       ∧ match_at g1 ("east", "0", 1%nat) = Some m1
       ∧ predicted_winner m1 = Some "MIA")
  ∧ (¬ has_teams series4
     ∧ handleSetWinner sample_env sample_state series4 A (Resolved ())
         (Resolved server_response) = (sample_state, [])).
Proof.
  assert (unique_ids sample_graph) as Hu
    by (apply unique_idsb_sound; vm_compute; reflexivity).
  assert (no_self_link playin2) as Hself by (vm_compute; discriminate).
  assert (has_teams playin2) as Hteams by (split; eexists; reflexivity).
  assert (¬ has_teams series4) as Hmissing
    by (intros [_ [tb Hb]]; vm_compute in Hb; discriminate).
  split.
  - split; [exact Hu|]. split; [reflexivity|]. split; [exact Hself|].
    split; [exact Hteams|].
    destruct (proj1 (C3_winner_is_a_participant sample_env sample_state
                       playin2 A)
                "bracket-1" sample_graph ("east", "0", 1%nat))
      as (st1 & req & g1 & m1 & Hrun & Hg1 & Hm1 & Ha & _ & _ & Hw & _);
      [reflexivity | reflexivity | reflexivity | exact Hu | reflexivity
      | exact Hself | exact Hteams |].
    exists st1, req, g1, m1. split; [exact Hrun|]. split; [exact Hg1|].
    split; [exact Hm1|]. rewrite Hw. unfold team_of. simpl. rewrite Ha.
    reflexivity.
  - split; [exact Hmissing|].
    apply (proj2 (C3_winner_is_a_participant sample_env sample_state
                    series4 A)).
    exact Hmissing.
Defined.

(** ** Series length *)

(** C5. For a round-0 match, [handleSetWinner] records and sends 1 as the
    series length whatever the pending-games cache holds (on a graph with
    unique ids, for a match of it with both participants that does not
    link to itself), and [handleSelectGames] returns at once: the state is
    unchanged, match node and pending-games cache included, and nothing is
    sent. *)
Theorem C5_playin_length_is_one env st match_ :
  round match_ = 0%Z →
  (∀ team bid (g : MatchesByConfRound) p,
     truthy (bracketId env) = Some bid →
     matches st = Some g →
     canEdit env st = true →
     unique_ids g →
     match_at g p = Some match_ →
     no_self_link match_ →
     has_teams match_ →
     ∃ st1 W (g1 : MatchesByConfRound) m1,
       handleSetWinner_local env st match_ team
       = Some (st1, PATCH_match bid (id match_) (set_winner W 1%Z))
       ∧ matches st1 = Some g1
       ∧ match_at g1 p = Some m1
       ∧ predicted_winner_games m1 = Some 1%Z)
  ∧ (∀ gamesValue patched reload,
       handleSelectGames env st match_ gamesValue patched reload = (st, [])).
Proof.
  intros Hround. split.
  - intros team bid g p Hbid Hg Hedit Hu Hp Hself Hteams.
    destruct (set_winner_run env st g match_ team bid Hbid Hg Hedit Hteams)
      as (W & L & st1 & _ & _ & Hrun & Hg1 & _).
    assert (winner_games (pendingGames st) match_ W = 1%Z) as Hgames.
    { unfold winner_games. by rewrite bool_decide_eq_true_2. }
    rewrite Hgames in Hrun.
    eexists st1, W, _, _. split; [exact Hrun|]. split; [exact Hg1|].
    rewrite match_at_graph_map, Hp. simpl.
    rewrite (winner_steps_picked g _ p) by done.
    split; [reflexivity|]. simpl. by rewrite Hgames.
  - intros gamesValue patched reload.
    unfold handleSelectGames, handleSelectGames_local.
    destruct (truthy (bracketId env)); [|done].
    destruct (matches st); [|done].
    destruct (canEdit env st); [|done].
    by rewrite bool_decide_eq_true_2.
Qed.

Lemma C5_playin_length_witness :
  round playin1 = 0%Z
  ∧ (∃ st1 W (g1 : MatchesByConfRound) m1,
       handleSetWinner_local sample_env
         (setPendingGames (λ prev, <["e-p1" := 7%Z]> prev) sample_state)
         playin1 B
       = Some (st1, PATCH_match "bracket-1" "e-p1" (set_winner W 1%Z))
       ∧ matches st1 = Some g1
       ∧ match_at g1 ("east", "0", 0%nat) = Some m1
       ∧ predicted_winner_games m1 = Some 1%Z)
  ∧ handleSelectGames sample_env sample_state playin1 5 (Resolved ())
      (Resolved server_response) = (sample_state, []).
Proof.
  split; [reflexivity|]. split.
  - apply (proj1 (C5_playin_length_is_one sample_env
                    (setPendingGames (λ prev, <["e-p1" := 7%Z]> prev)
                       sample_state)
                    playin1 eq_refl) B "bracket-1" sample_graph
             ("east", "0", 0%nat)).
    + reflexivity.
    + reflexivity.
    + reflexivity.
    + apply unique_idsb_sound. vm_compute. reflexivity.
    + reflexivity.
    + vm_compute. discriminate.
    + split; eexists; reflexivity.
  - apply (proj2 (C5_playin_length_is_one sample_env sample_state playin1
                    eq_refl)).
Defined.

(** C6. For a match of a round other than 0, [handleSetWinner] records and
    sends: the recorded length when the recorded winner is the team now
    picked; otherwise the pending-games entry of the match; otherwise 4.
    It removes the pending-games entry of the match.  [handleSelectGames]
    on such a match without a recorded winner only stores the value in the
    pending-games cache: the graph and the rest of the state are unchanged
    and nothing is sent. *)
Theorem C6_series_length_precedence env st match_ :
  round match_ ≠ 0%Z →
  (∀ team bid (g : MatchesByConfRound) p,
     truthy (bracketId env) = Some bid →
     matches st = Some g →
     canEdit env st = true →
     unique_ids g →
     match_at g p = Some match_ →
     no_self_link match_ →
     has_teams match_ →
     ∃ st1 W games (g1 : MatchesByConfRound) m1,
       team_of team match_ = Some W
       ∧ handleSetWinner_local env st match_ team
         = Some (st1, PATCH_match bid (id match_) (set_winner W games))
       ∧ matches st1 = Some g1
       ∧ match_at g1 p = Some m1
       ∧ predicted_winner_games m1 = Some games
       ∧ pendingGames st1 = delete (id match_) (pendingGames st)
       ∧ pendingGames st1 !! id match_ = None
       ∧ (∀ n, predicted_winner match_ = Some W →
               predicted_winner_games match_ = Some n → games = n)
       ∧ (¬ (predicted_winner match_ = Some W
             ∧ is_Some (predicted_winner_games match_)) →
          ∀ n, pendingGames st !! id match_ = Some n → games = n)
       ∧ (¬ (predicted_winner match_ = Some W
             ∧ is_Some (predicted_winner_games match_)) →
          pendingGames st !! id match_ = None → games = 4%Z))
  ∧ (∀ bid (g : MatchesByConfRound) gamesValue patched reload,
       truthy (bracketId env) = Some bid →
       matches st = Some g →
       canEdit env st = true →
       truthy (predicted_winner match_) = None →
       handleSelectGames env st match_ gamesValue patched reload
       = (setPendingGames (λ prev, <[id match_ := gamesValue]> prev) st, [])).
Proof.
  intros Hround. split.
  - intros team bid g p Hbid Hg Hedit Hu Hp Hself Hteams.
    destruct (set_winner_run env st g match_ team bid Hbid Hg Hedit Hteams)
      as (W & L & st1 & HW & _ & Hrun & Hg1 & Hpending & _).
    eexists st1, W, _, _, _. split; [exact HW|]. split; [exact Hrun|].
    split; [exact Hg1|].
    rewrite match_at_graph_map, Hp. simpl.
    rewrite (winner_steps_picked g _ p) by done.
    split; [reflexivity|]. split; [reflexivity|]. split; [exact Hpending|].
    split; [rewrite Hpending; apply lookup_delete_eq|].
    unfold winner_games. rewrite bool_decide_eq_false_2 by done.
    repeat split.
    + intros n Hw Hn. rewrite bool_decide_eq_true_2 by done. by rewrite Hn.
    + intros Hnot n Hn. rewrite Hn. case_bool_decide as Hw; [|done].
      destruct (predicted_winner_games match_) eqn:Hrec; [|done].
      destruct Hnot. split; [done | by eexists].
    + intros Hnot Hn. rewrite Hn. case_bool_decide as Hw; [|done].
      destruct (predicted_winner_games match_) eqn:Hrec; [|done].
      destruct Hnot. split; [done | by eexists].
  - intros bid g gamesValue patched reload Hbid Hg Hedit Hnone.
    unfold handleSelectGames, handleSelectGames_local.
    rewrite Hbid, Hg, Hedit, Hnone. by rewrite bool_decide_eq_false_2.
Qed.

Lemma C6_series_length_witness :
  round series6 ≠ 0%Z
  ∧ (∃ st1 (g1 : MatchesByConfRound) m1,
       handleSetWinner_local sample_env sample_state series6 A
       = Some (st1, PATCH_match "bracket-1" "e-r1-6" (set_winner "CLE" 6%Z))
       ∧ matches st1 = Some g1
       ∧ match_at g1 ("east", "1", 2%nat) = Some m1
       ∧ predicted_winner_games m1 = Some 6%Z
       ∧ pendingGames st1 !! "e-r1-6" = None)
  ∧ handleSelectGames sample_env sample_state series6 7 (Resolved ())
      (Resolved server_response)
    = (setPendingGames (λ prev, <["e-r1-6" := 7%Z]> prev) sample_state, []).
Proof.
  assert (round series6 ≠ 0%Z) as Hround by (vm_compute; discriminate).
  split; [exact Hround|]. split.
  - destruct (proj1 (C6_series_length_precedence sample_env sample_state
                       series6 Hround) A "bracket-1" sample_graph
                ("east", "1", 2%nat))
      as (st1 & W & games & g1 & m1 & HW & Hrun & Hg1 & Hm1 & Hrec & _ & Hgone
          & _ & Hpend & _).
    + reflexivity.
    + reflexivity.
    + reflexivity.
    + apply unique_idsb_sound. vm_compute. reflexivity.
    + reflexivity.
    + vm_compute. discriminate.
    + split; eexists; reflexivity.
    + assert (games = 6%Z) as ->.
      { apply Hpend; [|reflexivity]. intros [Hw _]. vm_compute in Hw.
        discriminate. }
      assert (W = "CLE") as -> by (vm_compute in HW; congruence).
      exists st1, g1, m1. repeat split; assumption.
  - apply (proj2 (C6_series_length_precedence sample_env sample_state
                    series6 Hround) "bracket-1" sample_graph);
      reflexivity.
Defined.

(** ** Play-in loser routing *)

(** The last queued update decides the team-B fields of game 3. *)
Lemma winner_steps_game3 (g : MatchesByConfRound) pending_ match_ team W L
    game3 t :
  round match_ = 0%Z → slot match_ = 2%Z →
  find_game3 g (conference match_) = Some game3 →
  id t = id game3 →
  ∃ t0,
    winner_steps g pending_ match_ team W L t
    = write_slot B (copied_fields (other_side team) L match_) t0.
Proof.
  intros Hround Hslot Hfind Hid. unfold winner_steps at 1, playin_step at 1.
  unfold playin_target. rewrite !bool_decide_eq_true_2 by done. simpl.
  rewrite Hfind. simpl. unfold update_if at 1.
  rewrite bool_decide_eq_true_2; [by eexists|].
  by rewrite forward_step_id, pick_step_id.
Qed.

(** C2. When a winner is recorded for a round-0, slot-2 match with both
    participants, every node carrying the id of the game-3 match (the
    round-0, slot-3 match found under round key 0 of the same conference)
    ends with the loser's team reference and display metadata (an absent
    field as null) in its team-B fields and with [predicted_winner] and
    [predicted_winner_games] null.  For a match of any other round or slot
    the loser-routing update is the identity. *)
Theorem C2_playin_loser_routed_to_game3 env st match_ team :
  (∀ bid (g : MatchesByConfRound) game3,
     truthy (bracketId env) = Some bid →
     matches st = Some g →
     canEdit env st = true →
     has_teams match_ →
     round match_ = 0%Z →
     slot match_ = 2%Z →
     find_game3 g (conference match_) = Some game3 →
     ∃ st1 req (g1 : MatchesByConfRound) loser,
       handleSetWinner_local env st match_ team = Some (st1, req)
       ∧ matches st1 = Some g1
       ∧ team_of (other_side team) match_ = Some loser
       ∧ round game3 = 0%Z ∧ slot game3 = 3%Z
       ∧ (∃ i, match_at g (conference match_, "0", i) = Some game3)
       ∧ (match team with A => team_b match_ | B => team_a match_ end)
         = Some loser
       ∧ ∀ q t,
           match_at g q = Some t → id t = id game3 →
           ∃ t',
             match_at g1 q = Some t'
             ∧ side_fields B t'
               = copied_fields (other_side team) loser match_
             ∧ predicted_winner t' = None
             ∧ predicted_winner_games t' = None
             ∧ team_b t' = Some loser
             ∧ team_b_name t'
               = orNull (match team with A => team_b_name match_ | B => team_a_name match_ end)
             ∧ team_b_code t'
               = orNull (match team with A => team_b_code match_ | B => team_a_code match_ end)
             ∧ team_b_logo_url t'
               = orNull (match team with A => team_b_logo_url match_ | B => team_a_logo_url match_ end)
             ∧ team_b_primary_color t'
               = orNull (match team with A => team_b_primary_color match_ | B => team_a_primary_color match_ end)
             ∧ team_b_secondary_color t'
               = orNull (match team with A => team_b_secondary_color match_ | B => team_a_secondary_color match_ end))
  ∧ (round match_ ≠ 0%Z ∨ slot match_ ≠ 2%Z →
     ∀ matches_ loserSide loserTeamId prev,
       updatePlayInGame3LoserInState matches_ match_ loserSide loserTeamId
         prev = prev).
Proof.
  split.
  - intros bid g game3 Hbid Hg Hedit Hteams Hround Hslot Hfind.
    destruct (set_winner_run env st g match_ team bid Hbid Hg Hedit Hteams)
      as (W & L & st1 & _ & HL & Hrun & Hg1 & _).
    destruct (find_game3_at _ _ _ Hfind) as (Hr3 & Hs3 & Hat).
    eexists st1, _, _, L. split; [exact Hrun|]. split; [exact Hg1|].
    split; [exact HL|]. split; [exact Hr3|]. split; [exact Hs3|].
    split; [exact Hat|].
    split; [unfold team_of in HL; by destruct team|].
    intros q t Hq Hid.
    rewrite match_at_graph_map, Hq. simpl.
    destruct (winner_steps_game3 g (pendingGames st) match_ team W L game3 t
                Hround Hslot Hfind Hid) as [t0 ->].
    eexists. split; [reflexivity|].
    split; [exact (side_fields_write_slot B _ _)|].
    split; [exact (proj1 (write_slot_prediction B _ _))|].
    split; [exact (proj2 (write_slot_prediction B _ _))|].
    pose proof (slot_fields_explicit
                  (write_slot B (copied_fields (other_side team) L match_) t0)
                  match_ B (other_side team) L (side_fields_write_slot B _ _))
      as Hexplicit.
    by destruct team.
  - intros Hother matches_ loserSide loserTeamId prev.
    unfold updatePlayInGame3LoserInState.
    destruct Hother as [Hr|Hs].
    + by rewrite (bool_decide_eq_true_2 _ Hr).
    + rewrite (bool_decide_eq_true_2 _ Hs). by rewrite orb_true_r.
Qed.

Lemma C2_playin_loser_witness :
  (has_teams playin2 ∧ round playin2 = 0%Z ∧ slot playin2 = 2%Z
   ∧ find_game3 sample_graph (conference playin2) = Some playin3
   ∧ team_b playin3 = Some "ORL" ∧ predicted_winner playin3 = Some "ORL"
   ∧ team_b_logo_url playin2 = Undefined
   ∧ ∃ st1 req (g1 : MatchesByConfRound) t',
       handleSetWinner_local sample_env sample_state playin2 A
       = Some (st1, req)
       ∧ matches st1 = Some g1
       ∧ match_at g1 ("east", "0", 2%nat) = Some t'
       ∧ side_fields B t' = copied_fields B "PHI" playin2
       ∧ predicted_winner t' = None
       ∧ predicted_winner_games t' = None
       ∧ team_b t' = Some "PHI"
       ∧ team_b_name t' = Val "Team PHI"
       ∧ team_b_code t' = Val "PHI"
       ∧ team_b_logo_url t' = Null
       ∧ team_b_primary_color t' = Val "#PHI"
       ∧ team_b_secondary_color t' = Null)
  ∧ (round series6 ≠ 0%Z
     ∧ updatePlayInGame3LoserInState (Some sample_graph) series6 B "IND"
         (Some sample_graph) = Some sample_graph).
Proof.
  assert (has_teams playin2) as Hteams by (split; eexists; reflexivity).
  assert (round series6 ≠ 0%Z) as Hround by (vm_compute; discriminate).
  split.
  - split; [exact Hteams|]. do 6 (split; [reflexivity|]).
    destruct (proj1 (C2_playin_loser_routed_to_game3 sample_env sample_state
                       playin2 A) "bracket-1" sample_graph playin3)
      as (st1 & req & g1 & loser & Hrun & Hg1 & _ & _ & _ & _ & Hloser
          & Hnodes);
      [reflexivity | reflexivity | reflexivity | exact Hteams | reflexivity
      | reflexivity | reflexivity |].
    assert (loser = "PHI") as ->
      by (change (Some "PHI" = Some loser) in Hloser; congruence).
    destruct (Hnodes ("east", "0", 2%nat) playin3) as (t' & Ht' & Hfields);
      [reflexivity | reflexivity |].
    exists st1, req, g1, t'. split; [exact Hrun|]. split; [exact Hg1|].
    split; [exact Ht'|]. exact Hfields.
  - split; [exact Hround|].
    apply (proj2 (C2_playin_loser_routed_to_game3 sample_env sample_state
                    series6 A)).
    left. exact Hround.
Defined.

(** ** Forward propagation *)

(** C1, as stated, fails on a round-0, slot-2 match.  Without a forward
    link, picking a winner still changes another match: the loser is
    routed into game 3.  With a forward link to team B of game 3, the
    team-B fields of the target end with the loser, not with the winner:
    the loser routing is queued after the forward propagation. *)
Lemma C1_counterexample :
  (has_teams playin2_unlinked
   ∧ forward_link playin2_unlinked = None
   ∧ match_at unlinked_graph ("east", "0", 2%nat) = Some playin3
   ∧ id playin3 ≠ id playin2_unlinked
   ∧ node_after
       (handleSetWinner_local sample_env (sample_state_of unlinked_graph)
          playin2_unlinked A) ("east", "0", 2%nat)
     = Some (write_slot B (copied_fields B "PHI" playin2_unlinked) playin3)
   ∧ write_slot B (copied_fields B "PHI" playin2_unlinked) playin3 ≠ playin3)
  ∧ (has_teams playin2_to_game3
     ∧ forward_link playin2_to_game3 = Some (id playin3, slot_b)
     ∧ team_of A playin2_to_game3 = Some "MIA"
     ∧ match_at crossed_graph ("east", "0", 2%nat) = Some playin3
     ∧ ∃ t',
         node_after
           (handleSetWinner_local sample_env (sample_state_of crossed_graph)
              playin2_to_game3 A) ("east", "0", 2%nat) = Some t'
         ∧ team_b t' = Some "PHI"
         ∧ side_fields B t' ≠ copied_fields A "MIA" playin2_to_game3).
Proof.
  split.
  - split; [split; eexists; reflexivity|].
    split; [reflexivity|]. split; [reflexivity|].
    split; [vm_compute; discriminate|].
    split; [vm_compute; reflexivity|]. vm_compute. discriminate.
  - split; [split; eexists; reflexivity|].
    split; [reflexivity|]. split; [reflexivity|]. split; [reflexivity|].
    eexists. split; [vm_compute; reflexivity|].
    split; [reflexivity|]. vm_compute. discriminate.
Qed.

(** C1, amended.  With edit rights and both participants assigned,
    [handleSetWinner] for the team [W] on the picked side:
    - when the match has a forward link, leaves in every node carrying the
      target id, in the slot named by [next_slot], the reference of [W]
      and its display metadata (an absent field as null), with
      [predicted_winner] and [predicted_winner_games] null, unless the
      match is the round-0, slot-2 match and the link names team B of the
      game-3 match the loser is routed to;
    - when the match has no forward link, or no node carries the target
      id, leaves unchanged every node that carries neither the id of the
      match nor the id of the game-3 match of a round-0, slot-2 match. *)
Theorem C1_forward_propagation env st match_ team bid
    (g : MatchesByConfRound) :
  truthy (bracketId env) = Some bid →
  matches st = Some g →
  canEdit env st = true →
  has_teams match_ →
  ∃ st1 req (g1 : MatchesByConfRound) W,
    handleSetWinner_local env st match_ team = Some (st1, req)
    ∧ matches st1 = Some g1
    ∧ team_of team match_ = Some W
    ∧ (match team with A => team_a match_ | B => team_b match_ end) = Some W
    ∧ (∀ nextId ns,
         forward_link match_ = Some (nextId, ns) →
         ¬ (playin_target g match_ = Some nextId ∧ ns = slot_b) →
         ∀ q t,
           match_at g q = Some t → id t = nextId →
           ∃ t',
             match_at g1 q = Some t'
             ∧ side_fields (destSlotLetter ns) t' = copied_fields team W match_
             ∧ predicted_winner t' = None
             ∧ predicted_winner_games t' = None
             ∧ match ns with
               | slot_a =>
                 team_a t' = Some W
                 ∧ team_a_name t'
                   = orNull (match team with A => team_a_name match_ | B => team_b_name match_ end)
                 ∧ team_a_code t'
                   = orNull (match team with A => team_a_code match_ | B => team_b_code match_ end)
                 ∧ team_a_logo_url t'
                   = orNull (match team with A => team_a_logo_url match_ | B => team_b_logo_url match_ end)
                 ∧ team_a_primary_color t'
                   = orNull (match team with A => team_a_primary_color match_ | B => team_b_primary_color match_ end)
                 ∧ team_a_secondary_color t'
                   = orNull (match team with A => team_a_secondary_color match_ | B => team_b_secondary_color match_ end)
               | slot_b =>
                 team_b t' = Some W
                 ∧ team_b_name t'
                   = orNull (match team with A => team_a_name match_ | B => team_b_name match_ end)
                 ∧ team_b_code t'
                   = orNull (match team with A => team_a_code match_ | B => team_b_code match_ end)
                 ∧ team_b_logo_url t'
                   = orNull (match team with A => team_a_logo_url match_ | B => team_b_logo_url match_ end)
                 ∧ team_b_primary_color t'
                   = orNull (match team with A => team_a_primary_color match_ | B => team_b_primary_color match_ end)
                 ∧ team_b_secondary_color t'
                   = orNull (match team with A => team_a_secondary_color match_ | B => team_b_secondary_color match_ end)
               end)
    ∧ (forward_link match_ = None
       ∨ (∃ nextId ns,
            forward_link match_ = Some (nextId, ns)
            ∧ ∀ q t, match_at g q = Some t → id t ≠ nextId) →
       ∀ q t,
         match_at g q = Some t →
         id t ≠ id match_ →
         playin_target g match_ ≠ Some (id t) →
         match_at g1 q = Some t).
Proof.
  intros Hbid Hg Hedit Hteams.
  destruct (set_winner_run env st g match_ team bid Hbid Hg Hedit Hteams)
    as (W & L & st1 & HW & _ & Hrun & Hg1 & _).
  eexists st1, _, _, W. split; [exact Hrun|]. split; [exact Hg1|].
  split; [exact HW|].
  split; [unfold team_of in HW; by destruct team|]. split.
  - intros nextId ns Hlink Hclash q t Hq Hid.
    rewrite match_at_graph_map, Hq. simpl. eexists. split; [reflexivity|].
    set (t' := winner_steps g (pendingGames st) match_ team W L t).
    assert (side_fields (destSlotLetter ns) t' = copied_fields team W match_
            ∧ predicted_winner t' = None
            ∧ predicted_winner_games t' = None) as (Hfields & Hw & Hn).
    { unfold t', winner_steps.
      set (t1 := pick_step match_ W _ t).
      assert (id t1 = nextId) as Hid1 by (by unfold t1; rewrite pick_step_id).
      set (t2 := write_slot (destSlotLetter ns)
                   (copied_fields team W match_) t1).
      assert (forward_step match_ team W t1 = t2) as ->.
      { unfold forward_step. rewrite Hlink. unfold update_if.
        by rewrite bool_decide_eq_true_2. }
      assert (side_fields (destSlotLetter ns) t2
              = copied_fields team W match_)
        as Hfields by apply side_fields_write_slot.
      assert (predicted_winner t2 = None ∧ predicted_winner_games t2 = None)
        as Hcleared by apply write_slot_prediction.
      unfold playin_step.
      destruct (playin_target g match_) as [k|] eqn:Hk; [|done].
      unfold update_if. case_bool_decide as Hsame; [|done].
      assert (id t2 = nextId) as Hid2 by (by unfold t2; rewrite write_slot_id).
      destruct ns; [|destruct Hclash; split; congruence].
      split; [|exact (write_slot_prediction B _ _)].
      rewrite <- Hfields. exact (side_fields_write_slot_other B _ _). }
    split; [exact Hfields|]. split; [exact Hw|]. split; [exact Hn|].
    pose proof (slot_fields_explicit t' match_ (destSlotLetter ns) team W
                  Hfields) as Hexplicit.
    by destruct ns.
  - intros Hnone q t Hq Hother Hgame3.
    rewrite match_at_graph_map, Hq. simpl. f_equal.
    unfold winner_steps.
    assert (pick_step match_ W (winner_games (pendingGames st) match_ W) t
            = t) as ->.
    { unfold pick_step, update_if. by rewrite bool_decide_eq_false_2. }
    assert (forward_step match_ team W t = t) as ->.
    { unfold forward_step.
      destruct Hnone as [->|(nextId & ns & -> & Habsent)]; [done|].
      unfold update_if. rewrite bool_decide_eq_false_2; [done|].
      by apply (Habsent q). }
    unfold playin_step. destruct (playin_target g match_) as [k|]; [|done].
    unfold update_if. rewrite bool_decide_eq_false_2; [done|]. congruence.
Qed.

Lemma C1_forward_propagation_witness :
  has_teams playin2
  ∧ forward_link playin2 = Some ("e-r1-5", slot_b)
  ∧ match_at sample_graph ("east", "1", 1%nat) = Some series5
  ∧ team_b series5 = Some "ORL"
  ∧ predicted_winner series5 = Some "NYK"
  ∧ team_a_logo_url playin2 = Undefined
  ∧ ∃ st1 req (g1 : MatchesByConfRound) t',
      handleSetWinner_local sample_env sample_state playin2 A
      = Some (st1, req)
      ∧ matches st1 = Some g1
      ∧ match_at g1 ("east", "1", 1%nat) = Some t'
      ∧ side_fields B t' = copied_fields A "MIA" playin2
      ∧ predicted_winner t' = None
      ∧ predicted_winner_games t' = None
      ∧ team_b t' = Some "MIA"
      ∧ team_b_name t' = Val "Team MIA"
      ∧ team_b_code t' = Val "MIA"
      ∧ team_b_logo_url t' = Null
      ∧ team_b_primary_color t' = Val "#MIA"
      ∧ team_b_secondary_color t' = Null.
Proof.
  assert (has_teams playin2) as Hteams by (split; eexists; reflexivity).
  split; [exact Hteams|]. do 5 (split; [reflexivity|]).
  destruct (C1_forward_propagation sample_env sample_state playin2 A
              "bracket-1" sample_graph)
    as (st1 & req & g1 & W & Hrun & Hg1 & _ & HW & Hlinked & _);
    [reflexivity | reflexivity | reflexivity | exact Hteams |].
  assert (W = "MIA") as ->
    by (change (Some "MIA" = Some W) in HW; congruence).
  destruct (Hlinked "e-r1-5" slot_b) with (q := ("east", "1", 1%nat))
                                          (t := series5)
    as (t' & Ht' & Hfields & Hw & Hn & Hteam & Hname & Hcode & Hlogo & Hprim
        & Hsec);
    [reflexivity | intros [Hk _]; vm_compute in Hk; discriminate
    | reflexivity | reflexivity |].
  exists st1, req, g1, t'. split; [exact Hrun|]. split; [exact Hg1|].
  split; [exact Ht'|]. split; [exact Hfields|]. split; [exact Hw|].
  split; [exact Hn|]. split; [exact Hteam|]. split; [exact Hname|].
  split; [exact Hcode|]. split; [exact Hlogo|]. split; [exact Hprim|].
  exact Hsec.
Defined.

(** ** Picking the same winner again *)

(** Rewriting the tests [m.id === matchId] of nested updaters. *)
Ltac decide_ids :=
  repeat match goal with
         | H : ?P |- context [bool_decide ?P] =>
           rewrite (bool_decide_eq_true_2 P H)
         | H : ¬ ?P |- context [bool_decide ?P] =>
           rewrite (bool_decide_eq_false_2 P H)
         | |- _ => progress rewrite ?write_slot_id, ?with_prediction_id
         end.

(** The three queued updates write constants: queued twice, they leave
    what they leave when queued once. *)
Lemma winner_steps_idem (g : MatchesByConfRound) pending_ match_ team W L t :
  winner_steps g pending_ match_ team W L
    (winner_steps g pending_ match_ team W L t)
  = winner_steps g pending_ match_ team W L t.
Proof.
  unfold winner_steps, playin_step, forward_step, pick_step.
  destruct (forward_link match_) as [[nextId ns]|].
  - destruct (playin_target g match_) as [k|]; unfold update_if;
      destruct (decide (id t = id match_)), (decide (id t = nextId));
      try destruct (decide (id t = k));
      decide_ids; try reflexivity; destruct ns; reflexivity.
  - destruct (playin_target g match_) as [k|]; unfold update_if;
      destruct (decide (id t = id match_));
      try destruct (decide (id t = k));
      decide_ids; reflexivity.
Qed.

Lemma find_map (f : Match → Match) (test : Match → bool) (ms : list Match) :
  (∀ m, test (f m) = test m) →
  List.find test (f <$> ms) = f <$> List.find test ms.
Proof.
  intros Htest. induction ms as [|m ms IH]; simpl; [done|].
  rewrite Htest. by destruct (test m).
Qed.

Lemma find_game3_graph_map (f : Match → Match) (g : MatchesByConfRound) conf :
  (∀ m, round (f m) = round m ∧ slot (f m) = slot m) →
  find_game3 (graph_map f g) conf = f <$> find_game3 g conf.
Proof.
  intros Hf. unfold find_game3, graph_map. rewrite lookup_fmap.
  destruct (g !! conf) as [rounds|]; simpl; [|done]. rewrite lookup_fmap.
  destruct (rounds !! "0") as [ms|]; simpl; [|done].
  apply find_map. intros m. unfold is_game3.
  by destruct (Hf m) as [-> ->].
Qed.

Lemma update_if_shape (k : string) (f : Match → Match) (t : Match) :
  (∀ m, round (f m) = round m ∧ slot (f m) = slot m) →
  round (update_if k f t) = round t ∧ slot (update_if k f t) = slot t.
Proof. intros Hf. unfold update_if. case_bool_decide; [apply Hf | done]. Qed.

Lemma write_slot_shape d T m :
  round (write_slot d T m) = round m ∧ slot (write_slot d T m) = slot m.
Proof. by destruct d. Qed.

Lemma winner_steps_shape (g : MatchesByConfRound) pending_ match_ team W L t :
  round (winner_steps g pending_ match_ team W L t) = round t
  ∧ slot (winner_steps g pending_ match_ team W L t) = slot t.
Proof.
  unfold winner_steps, playin_step, forward_step, pick_step.
  set (t1 := update_if (id match_) _ t).
  assert (round t1 = round t ∧ slot t1 = slot t) as [<- <-]
    by (by apply update_if_shape).
  destruct (forward_link match_) as [[nextId ns]|].
  - set (t2 := update_if nextId _ t1).
    assert (round t2 = round t1 ∧ slot t2 = slot t1) as [<- <-]
      by (apply update_if_shape; intros m; apply write_slot_shape).
    destruct (playin_target g match_); [|done].
    apply update_if_shape. intros m. apply write_slot_shape.
  - destruct (playin_target g match_); [|done].
    apply update_if_shape. intros m. apply write_slot_shape.
Qed.

Lemma winner_steps_id (g : MatchesByConfRound) pending_ match_ team W L t :
  id (winner_steps g pending_ match_ team W L t) = id t.
Proof.
  unfold winner_steps.
  by rewrite playin_step_id, forward_step_id, pick_step_id.
Qed.

(** After the first pick the page renders the picked match with its
    prediction; the updates the second pick queues are those of the
    first. *)
Lemma winner_steps_again (g : MatchesByConfRound) pending_ pending' match_
    team W L f t :
  (∀ m, id (f m) = id m) →
  (∀ m, round (f m) = round m ∧ slot (f m) = slot m) →
  let games := winner_games pending_ match_ W in
  let match1 := with_prediction (Some W) (Some games) match_ in
  winner_steps (graph_map f g) pending' match1 team W L t
  = winner_steps g pending_ match_ team W L t.
Proof.
  intros Hid Hshape games match1.
  assert (winner_games pending' match1 W = games) as Hgames.
  { unfold winner_games at 1. simpl. case_bool_decide as Hround.
    - unfold games, winner_games. by rewrite bool_decide_eq_true_2.
    - by rewrite bool_decide_eq_true_2. }
  assert (playin_target (graph_map f g) match1 = playin_target g match_)
    as Htarget.
  { unfold playin_target. simpl. rewrite find_game3_graph_map by done.
    destruct (find_game3 g (conference match_)) as [game3|]; simpl; [|done].
    by rewrite Hid. }
  unfold winner_steps. rewrite Hgames. unfold playin_step. rewrite Htarget.
  assert (∀ s T, copied_fields s T match1 = copied_fields s T match_)
    as Hcopied by (by intros [] T).
  rewrite Hcopied. unfold forward_step.
  change (forward_link match1) with (forward_link match_).
  destruct (forward_link match_) as [[nextId ns]|]; [|done].
  by rewrite Hcopied.
Qed.

Lemma State_eq (st st' : State) :
  bracket st = bracket st' → matches st = matches st' →
  loading st = loading st' → saving st = saving st' →
  updatingMatchId st = updatingMatchId st' → error st = error st' →
  bracketName st = bracketName st' → saveMessage st = saveMessage st' →
  playoffsLocked st = playoffsLocked st' →
  pendingGames st = pendingGames st' →
  st = st'.
Proof. destruct st, st'. simpl. by intros -> -> -> -> -> -> -> -> -> ->. Qed.

(** The state a completed pick ends in is reproduced by the same writes. *)
Lemma picked_state_again (k : string) (G : MatchesByConfRound) (st : State) :
  let picked st :=
    setUpdatingMatchId None
      (setError None
         (setUpdatingMatchId (Some k)
            (setPendingGames (delete k) (setMatches (λ _, Some G) st)))) in
  picked (picked st) = picked st.
Proof.
  intros picked. apply State_eq; try reflexivity.
  change (delete k (delete k (pendingGames st)) = delete k (pendingGames st)).
  apply map_eq. intros j. rewrite !lookup_delete. by case_decide.
Qed.

(** C7. On a graph with unique ids, for a match of it with both
    participants that does not link to itself: once the first pick has
    completed, picking the same side of the match as it is then rendered
    ends in the very same state, and so in the same graph, downstream
    match and play-in game 3 included. *)
Theorem C7_same_pick_twice env st match_ team bid (g : MatchesByConfRound) p :
  truthy (bracketId env) = Some bid →
  matches st = Some g →
  canEdit env st = true →
  unique_ids g →
  match_at g p = Some match_ →
  no_self_link match_ →
  has_teams match_ →
  ∀ reload1 reload2,
    ∃ st1 req (g1 : MatchesByConfRound) match1,
      handleSetWinner env st match_ team (Resolved ()) reload1 = (st1, [req])
      ∧ matches st1 = Some g1
      ∧ match_at g1 p = Some match1
      ∧ handleSetWinner env st1 match1 team (Resolved ()) reload2
        = (st1, [req]).
Proof.
  intros Hbid Hg Hedit Hu Hp Hself Hteams reload1 reload2.
  destruct (has_teams_sides match_ team Hteams)
    as (ta & tb & Ha & Hb & HW & HL).
  set (W := match team with A => ta | B => tb end) in *.
  set (L := match team with A => tb | B => ta end) in *.
  pose proof (handleSetWinner_local_eq env st g match_ team bid ta tb
                Hbid Hg Hedit Ha Hb) as Hrun1.
  simpl in Hrun1. fold W L in Hrun1.
  set (U := winner_steps g (pendingGames st) match_ team W L) in *.
  set (games := winner_games (pendingGames st) match_ W) in *.
  set (match1 := with_prediction (Some W) (Some games) match_).
  unfold handleSetWinner at 1. rewrite Hrun1.
  eexists _, _, (graph_map U g), match1. split; [reflexivity|].
  split; [reflexivity|].
  split.
  { rewrite match_at_graph_map, Hp. simpl. f_equal.
    by apply (winner_steps_picked g _ p). }
  set (st1 := setUpdatingMatchId None _).
  assert (matches st1 = Some (graph_map U g)) as Hg1 by reflexivity.
  assert (canEdit env st1 = true) as Hedit1 by exact Hedit.
  pose proof (handleSetWinner_local_eq env st1 (graph_map U g) match1 team
                bid ta tb Hbid Hg1 Hedit1 Ha Hb) as Hrun2.
  simpl in Hrun2. fold W L in Hrun2.
  unfold handleSetWinner. rewrite Hrun2.
  assert (winner_games (delete (id match_) (pendingGames st)) match1 W = games)
    as ->.
  { unfold winner_games at 1. simpl. case_bool_decide as Hround.
    - unfold games, winner_games. by rewrite bool_decide_eq_true_2.
    - by rewrite bool_decide_eq_true_2. }
  assert (graph_map
            (winner_steps (graph_map U g)
               (delete (id match_) (pendingGames st)) match1 team W L)
            (graph_map U g) = graph_map U g) as ->.
  { rewrite graph_map_compose. apply graph_map_ext.
    intros q t _. simpl. unfold match1, games.
    rewrite (winner_steps_again g (pendingGames st)).
    + apply winner_steps_idem.
    + intros m. apply winner_steps_id.
    + intros m. apply winner_steps_shape. }
  f_equal. change (id match1) with (id match_). unfold st1.
  apply picked_state_again.
Qed.

Lemma C7_same_pick_witness :
  unique_ids sample_graph
  ∧ match_at sample_graph ("east", "0", 1%nat) = Some playin2
  ∧ no_self_link playin2 ∧ has_teams playin2
  ∧ ∃ st1 req (g1 : MatchesByConfRound) match1,
      handleSetWinner sample_env sample_state playin2 A (Resolved ())
        (Resolved server_response) = (st1, [req])
      ∧ matches st1 = Some g1
      ∧ match_at g1 ("east", "0", 1%nat) = Some match1
      ∧ handleSetWinner sample_env st1 match1 A (Resolved ())
          (Resolved server_response) = (st1, [req]).
Proof.
  assert (unique_ids sample_graph) as Hu
    by (apply unique_idsb_sound; vm_compute; reflexivity).
  assert (no_self_link playin2) as Hself by (vm_compute; discriminate).
  assert (has_teams playin2) as Hteams by (split; eexists; reflexivity).
  split; [exact Hu|]. split; [reflexivity|]. split; [exact Hself|].
  split; [exact Hteams|].
  apply (C7_same_pick_twice sample_env sample_state playin2 A "bracket-1"
           sample_graph ("east", "0", 1%nat));
    [reflexivity | reflexivity | reflexivity | exact Hu | reflexivity
    | exact Hself | exact Hteams].
Defined.

(** ** Saving *)

Lemma match_decided_spec (m : Match) :
  match_decided m = true
  ↔ (has_teams m →
     is_Some (truthy (predicted_winner m))
     ∧ ((0 < round m)%Z → is_Some (predicted_winner_games m))).
Proof.
  unfold match_decided, has_teams.
  destruct (truthy (team_a m)) as [ta|]; [|by split; [intros _ [[] _]|]].
  destruct (truthy (team_b m)) as [tb|]; [|by split; [intros _ [_ []]|]].
  destruct (truthy (predicted_winner m)) as [w|].
  - rewrite negb_true_iff, andb_false_iff, !bool_decide_eq_false. split.
    + intros Hgames _. split; [by eexists|]. intros Hround.
      destruct Hgames as [|Hgames]; [done|].
      by destruct (predicted_winner_games m); [eexists|].
    + intros Hdecided. destruct Hdecided as [_ Hgames]; [by split; eexists|].
      destruct (decide (0 < round m)%Z) as [Hround|]; [|by left].
      right. intros Hnone. destruct (Hgames Hround) as [n Hn]. congruence.
  - split; [done|]. intros Hdecided.
    destruct Hdecided as [[w Hw] _]; [by split; eexists|]. done.
Qed.

Lemma allDecided_spec (g : MatchesByConfRound) :
  allDecided (Some g) = true
  ↔ g ≠ ∅ ∧ ∀ p m, match_at g p = Some m → match_decided m = true.
Proof.
  unfold allDecided. case_bool_decide as Hempty.
  - rewrite length_fmap in Hempty. apply nil_length_inv in Hempty.
    apply map_to_list_empty_iff in Hempty. split; [done|]. by intros [? _].
  - assert (g ≠ ∅) as Hne.
    { intros ->. by rewrite map_to_list_empty in Hempty. }
    rewrite forallb_forall. split.
    + intros Hall. split; [done|]. intros [[conf roundKey] i] m Hm.
      unfold match_at in Hm.
      destruct (g !! conf) as [rounds|] eqn:Hconf; simpl in Hm; [|done].
      destruct (rounds !! roundKey) as [ms|] eqn:Hround; simpl in Hm; [|done].
      specialize (Hall (conf, rounds)). simpl in Hall.
      rewrite forallb_forall in Hall.
      specialize (Hall ltac:(by apply list_elem_of_In, elem_of_map_to_list)
                    (roundKey, ms)). simpl in Hall.
      rewrite forallb_forall in Hall.
      apply Hall; [by apply list_elem_of_In, elem_of_map_to_list|].
      apply list_elem_of_In, list_elem_of_lookup. by exists i.
    + intros [_ Hall] [conf rounds] Hconf%list_elem_of_In%elem_of_map_to_list.
      apply forallb_forall.
      intros [roundKey ms] Hround%list_elem_of_In%elem_of_map_to_list.
      apply forallb_forall.
      intros m [i Hi]%list_elem_of_In%list_elem_of_lookup.
      apply (Hall (conf, roundKey, i)). unfold match_at.
      rewrite Hconf. simpl. rewrite Hround. simpl. exact Hi.
Qed.

(** C9. While some match with both participants has no predicted winner,
    or is of a round above 0 and has no predicted length, [allDecided] and
    [canSave] are false and [handleSaveBracket] returns without a request
    and without a state change.  [allDecided] holds exactly when the graph
    has a conference and every match with both participants has a winner
    and, above round 0, a length: a match that lacks a participant never
    blocks saving. *)
Theorem C9_save_needs_complete_predictions env st (g : MatchesByConfRound) :
  matches st = Some g →
  (∀ p m,
     match_at g p = Some m →
     has_teams m →
     truthy (predicted_winner m) = None
     ∨ ((0 < round m)%Z ∧ predicted_winner_games m = None) →
     allDecided (matches st) = false
     ∧ canSave env st = false
     ∧ ∀ patched, handleSaveBracket env st patched = (st, []))
  ∧ (allDecided (matches st) = true
     ↔ g ≠ ∅
       ∧ ∀ p m,
           match_at g p = Some m →
           has_teams m →
           is_Some (truthy (predicted_winner m))
           ∧ ((0 < round m)%Z → is_Some (predicted_winner_games m))).
Proof.
  intros Hg. rewrite Hg. split.
  - intros p m Hm Hteams Hmissing.
    assert (allDecided (Some g) = false) as Hall.
    { apply not_true_is_false. intros [_ Hall]%allDecided_spec.
      pose proof (proj1 (match_decided_spec m) (Hall p m Hm) Hteams)
        as [[w Hw] Hgames].
      destruct Hmissing as [Hnone|[Hround Hnone]]; [congruence|].
      destruct (Hgames Hround) as [n Hn]. congruence. }
    assert (canSave env st = false) as Hsave.
    { unfold canSave. rewrite Hg, Hall. by rewrite andb_false_r. }
    split; [done|]. split; [done|]. intros patched.
    unfold handleSaveBracket. rewrite Hsave.
    by destruct (truthy (bracketId env)).
  - rewrite allDecided_spec. split; intros [Hne Hall]; (split; [done|]).
    + intros p m Hm. by apply match_decided_spec, (Hall p).
    + intros p m Hm. apply match_decided_spec. by apply (Hall p).
Qed.

Lemma C9_save_witness :
  (match_at sample_graph ("east", "1", 2%nat) = Some series6
   ∧ has_teams series6
   ∧ truthy (predicted_winner series6) = None
   ∧ canSave sample_env sample_state = false
   ∧ handleSaveBracket sample_env sample_state
       (Resolved {| res_name := None; res_saved_at := None |})
     = (sample_state, []))
  ∧ (match_at decided_graph ("east", "1", 0%nat) = Some series4
     ∧ ¬ has_teams series4
     ∧ predicted_winner series4 = None
     ∧ allDecided (Some decided_graph) = true
     ∧ canSave sample_env (sample_state_of decided_graph) = true
     ∧ ∀ p m,
         match_at decided_graph p = Some m →
         has_teams m →
         is_Some (truthy (predicted_winner m))).
Proof.
  split.
  - assert (has_teams series6) as Hteams by (split; eexists; reflexivity).
    split; [reflexivity|]. split; [exact Hteams|]. split; [reflexivity|].
    destruct (proj1 (C9_save_needs_complete_predictions sample_env
                       sample_state sample_graph eq_refl)
                ("east", "1", 2%nat) series6)
      as (_ & Hsave & Hhandler);
      [reflexivity | exact Hteams | left; reflexivity |].
    split; [exact Hsave | apply Hhandler].
  - split; [reflexivity|].
    split; [intros [_ [tb Hb]]; vm_compute in Hb; discriminate|].
    split; [reflexivity|]. split; [vm_compute; reflexivity|].
    split; [vm_compute; reflexivity|].
    destruct (proj1 (proj2 (C9_save_needs_complete_predictions sample_env
                              (sample_state_of decided_graph) decided_graph
                              eq_refl)))
      as [_ Hall]; [vm_compute; reflexivity|].
    intros p m Hm Hteams. by destruct (Hall p m Hm Hteams).
Defined.

(** ** Recovery after a failed PATCH *)

(** The [catch] block: [loadBracket] begins with [setError(null)], before
    its [await], so the message set just before it is gone by the time
    the GET is awaited; a reload that succeeds installs the server's
    bracket and graph. *)
Lemma recover_resolved env msg fallback data st bid :
  truthy (bracketId env) = Some bid →
  ∃ st2 st',
    loadBracket_begin env true (setError (Some (orElse msg fallback)) st)
    = Some (st2, GET_bracket bid)
    ∧ error st2 = None
    ∧ recover env msg fallback (Resolved data) st = (st', [GET_bracket bid])
    ∧ error st' = None
    ∧ matches st' = Some (resp_matches data)
    ∧ bracket st' = Some (resp_bracket data)
    ∧ pendingGames st' = pendingGames st.
Proof.
  intros Hbid. unfold recover, loadBracket, loadBracket_begin.
  rewrite Hbid. simpl. eexists _, _. by repeat split.
Qed.

(** C4.  When the PATCH of [handleSetWinner], [handleSelectGames] or
    [handleUndo] is rejected and the reload succeeds, the handler ends
    with the graph a fresh load installs in place of the optimistic one,
    and with no error message: the message of the failed PATCH is set and
    then cleared by [loadBracket], so that neither the state in which the
    GET is awaited nor the final state carries it. *)
Theorem C4_failed_patch_reloads_and_drops_error env msg data bid :
  truthy (bracketId env) = Some bid →
  (∀ st match_ team st1 req,
     handleSetWinner_local env st match_ team = Some (st1, req) →
     ∃ st',
       handleSetWinner env st match_ team (Rejected msg) (Resolved data)
       = (st', [req; GET_bracket bid])
       ∧ matches st' = Some (resp_matches data)
       ∧ error st' = None)
  ∧ (∀ st match_ gamesValue st1 req,
       handleSelectGames_local env st match_ gamesValue = (st1, Some req) →
       ∃ st',
         handleSelectGames env st match_ gamesValue (Rejected msg)
           (Resolved data)
         = (st', [req; GET_bracket bid])
         ∧ matches st' = Some (resp_matches data)
         ∧ error st' = None)
  ∧ (∀ st match_ st1 req,
       handleUndo_local env st match_ = Some (st1, req) →
       ∃ st',
         handleUndo env st match_ (Rejected msg) (Resolved data)
         = (st', [req; GET_bracket bid])
         ∧ matches st' = Some (resp_matches data)
         ∧ error st' = None)
  ∧ (∀ st fallback,
       ∃ st2,
         loadBracket_begin env true
           (setError (Some (orElse msg fallback)) st)
         = Some (st2, GET_bracket bid)
         ∧ error st2 = None)
  ∧ (∀ st,
       matches (loadBracket env false (Resolved data) st).1
       = Some (resp_matches data)).
Proof.
  intros Hbid. split; [|split; [|split; [|split]]].
  - intros st match_ team st1 req Hrun.
    destruct (recover_resolved env msg "Failed to update match" data st1 bid
                Hbid) as (st2 & st' & _ & _ & Hrec & Herr & Hg & _).
    unfold handleSetWinner. rewrite Hrun, Hrec. by eexists.
  - intros st match_ gamesValue st1 req Hrun.
    destruct (recover_resolved env msg "Failed to update games" data st1 bid
                Hbid) as (st2 & st' & _ & _ & Hrec & Herr & Hg & _).
    unfold handleSelectGames. rewrite Hrun, Hrec. by eexists.
  - intros st match_ st1 req Hrun.
    destruct (recover_resolved env msg "Failed to undo prediction" data st1
                bid Hbid) as (st2 & st' & _ & _ & Hrec & Herr & Hg & _).
    unfold handleUndo. rewrite Hrun, Hrec. by eexists.
  - intros st fallback.
    destruct (recover_resolved env msg fallback data st bid Hbid)
      as (st2 & _ & Hbegin & Herr & _).
    by exists st2.
  - intros st. unfold loadBracket, loadBracket_begin. by rewrite Hbid.
Qed.

Lemma C4_failed_patch_witness :
  truthy (bracketId sample_env) = Some "bracket-1"
  ∧ ∃ st1 req st',
      handleSetWinner_local sample_env sample_state series6 A
      = Some (st1, req)
      ∧ handleSetWinner sample_env sample_state series6 A
          (Rejected "Request failed") (Resolved server_response)
        = (st', [req; GET_bracket "bracket-1"])
      ∧ matches st' = Some sample_graph
      ∧ error st' = None.
Proof.
  split; [reflexivity|].
  destruct (handleSetWinner_local sample_env sample_state series6 A)
    as [[st1 req]|] eqn:Hrun; [|vm_compute in Hrun; discriminate].
  destruct (proj1 (C4_failed_patch_reloads_and_drops_error sample_env
                     "Request failed" server_response "bracket-1" eq_refl)
              sample_state series6 A st1 req Hrun)
    as (st' & Hfull & Hg & Herr).
  exists st1, req, st'. split; [reflexivity|].
  split; [exact Hfull|]. split; [exact Hg | exact Herr].
Defined.

(** * Further properties of the bracket page *)

(** ** What a pick leaves alone *)

Lemma handleSetWinner_local_inv env st match_ team st1 req :
  handleSetWinner_local env st match_ team = Some (st1, req) →
  ∃ bid (g : MatchesByConfRound) ta tb,
    truthy (bracketId env) = Some bid
    ∧ matches st = Some g
    ∧ canEdit env st = true
    ∧ truthy (team_a match_) = Some ta
    ∧ truthy (team_b match_) = Some tb.
Proof.
  unfold handleSetWinner_local.
  destruct (truthy (bracketId env)) as [bid|]; simpl; [|done].
  destruct (matches st) as [g|]; simpl; [|done].
  destruct (decide (canEdit env st = true)) as [Hedit|Hedit];
    [|by rewrite option_guard_False].
  destruct (truthy (team_a match_)) as [ta|], (truthy (team_b match_)) as [tb|];
    rewrite ?option_guard_True by done; simpl; try done.
  intros _. by eexists bid, g, ta, tb.
Qed.

(** A run of [handleSetWinner_local], with all it determines. *)
Lemma set_winner_run_inv env st match_ team st1 req :
  handleSetWinner_local env st match_ team = Some (st1, req) →
  ∃ bid (g : MatchesByConfRound) W L,
    truthy (bracketId env) = Some bid
    ∧ matches st = Some g
    ∧ canEdit env st = true
    ∧ has_teams match_
    ∧ team_of team match_ = Some W
    ∧ team_of (other_side team) match_ = Some L
    ∧ W ≠ ""
    ∧ req = PATCH_match bid (id match_)
              (set_winner W (winner_games (pendingGames st) match_ W))
    ∧ st1 = setError None
              (setUpdatingMatchId (Some (id match_))
                 (setPendingGames (delete (id match_))
                    (setMatches
                       (λ _, Some (graph_map
                                     (winner_steps g (pendingGames st) match_
                                        team W L) g)) st))).
Proof.
  intros Hrun.
  destruct (handleSetWinner_local_inv _ _ _ _ _ _ Hrun)
    as (bid & g & ta & tb & Hbid & Hg & Hedit & Ha & Hb).
  pose proof (handleSetWinner_local_eq env st g match_ team bid ta tb
                Hbid Hg Hedit Ha Hb) as Heq.
  simpl in Heq. rewrite Heq in Hrun. injection Hrun as <- <-.
  assert (has_teams match_) as Hteams by (split; by eexists).
  pose proof Ha as Ha'. pose proof Hb as Hb'.
  apply truthy_Some in Ha' as [Ha' Hane]. apply truthy_Some in Hb' as [Hb' Hbne].
  exists bid, g, (match team with A => ta | B => tb end),
    (match team with A => tb | B => ta end).
  repeat split; try done; unfold team_of; by destruct team.
Qed.

Lemma state_after_pick_fields (k : string) (G : MatchesByConfRound) st :
  let st1 :=
    setError None
      (setUpdatingMatchId (Some k)
         (setPendingGames (delete k) (setMatches (λ _, Some G) st))) in
  matches st1 = Some G
  ∧ pendingGames st1 = delete k (pendingGames st)
  ∧ updatingMatchId st1 = Some k
  ∧ error st1 = None
  ∧ bracket st1 = bracket st
  ∧ bracketName st1 = bracketName st
  ∧ saving st1 = saving st
  ∧ loading st1 = loading st
  ∧ saveMessage st1 = saveMessage st
  ∧ playoffsLocked st1 = playoffsLocked st.
Proof. by repeat split. Qed.

(** X1. A pick changes at most the nodes of three ids: the picked match,
    the target of its forward link and, for a round-0, slot-2 match, game
    3.  Every other node of the graph is left as it was, and so are the
    bracket, its name being edited and the saving, loading and lock
    flags. *)
Theorem X1_pick_touches_three_ids env st match_ team st1 req
    (g : MatchesByConfRound) :
  handleSetWinner_local env st match_ team = Some (st1, req) →
  matches st = Some g →
  ∃ g1 : MatchesByConfRound,
    matches st1 = Some g1
    ∧ (∀ q t,
         match_at g q = Some t →
         id t ≠ id match_ →
         (∀ nextId ns, forward_link match_ = Some (nextId, ns) →
                       id t ≠ nextId) →
         playin_target g match_ ≠ Some (id t) →
         match_at g1 q = Some t)
    ∧ (∀ q, match_at g q = None → match_at g1 q = None)
    ∧ bracket st1 = bracket st
    ∧ bracketName st1 = bracketName st
    ∧ saving st1 = saving st
    ∧ loading st1 = loading st
    ∧ saveMessage st1 = saveMessage st
    ∧ playoffsLocked st1 = playoffsLocked st.
Proof.
  intros Hrun Hg.
  destruct (set_winner_run_inv _ _ _ _ _ _ Hrun)
    as (bid & g' & W & L & _ & Hg' & _ & _ & _ & _ & _ & _ & ->).
  assert (g' = g) as -> by congruence.
  destruct (state_after_pick_fields (id match_)
              (graph_map (winner_steps g (pendingGames st) match_ team W L) g)
              st)
    as (Hg1 & _ & _ & _ & Hrest).
  eexists. split; [exact Hg1|]. split; [|split; [|exact Hrest]].
  - intros q t Hq Hpicked Hlink Hgame3.
    rewrite match_at_graph_map, Hq. simpl. f_equal. unfold winner_steps.
    assert (pick_step match_ W (winner_games (pendingGames st) match_ W) t
            = t) as ->.
    { unfold pick_step, update_if. by rewrite bool_decide_eq_false_2. }
    assert (forward_step match_ team W t = t) as ->.
    { unfold forward_step.
      destruct (forward_link match_) as [[nextId ns]|] eqn:Hl; [|done].
      unfold update_if. rewrite bool_decide_eq_false_2; [done|].
      by apply (Hlink nextId ns). }
    unfold playin_step. destruct (playin_target g match_) as [k|]; [|done].
    unfold update_if. rewrite bool_decide_eq_false_2; [done|]. congruence.
  - intros q Hq. by rewrite match_at_graph_map, Hq.
Qed.

Lemma X1_pick_touches_witness :
  ∃ st1 req (g1 : MatchesByConfRound),
    handleSetWinner_local sample_env sample_state playin2 A = Some (st1, req)
    ∧ matches st1 = Some g1
    ∧ match_at g1 ("east", "0", 0%nat) = Some playin1
    ∧ match_at g1 ("east", "1", 2%nat) = Some series6
    ∧ match_at g1 ("east", "2", 0%nat) = Some semi9
    ∧ match_at g1 ("west", "0", 0%nat) = None.
Proof.
  destruct (handleSetWinner_local sample_env sample_state playin2 A)
    as [[st1 req]|] eqn:Hrun; [|vm_compute in Hrun; discriminate].
  destruct (X1_pick_touches_three_ids sample_env sample_state playin2 A st1
              req sample_graph Hrun eq_refl)
    as (g1 & Hg1 & Hframe & Hnone & _).
  exists st1, req, g1. split; [reflexivity|]. split; [exact Hg1|].
  assert (∀ q t, match_at sample_graph q = Some t →
                 id t ≠ "e-p2" → id t ≠ "e-r1-5" → id t ≠ "e-p3" →
                 match_at g1 q = Some t) as Hother.
  { intros q t Hq H1 H2 H3. apply Hframe; [exact Hq | exact H1 | |].
    - intros nextId ns Hl.
      change (Some ("e-r1-5", slot_b) = Some (nextId, ns)) in Hl.
      injection Hl as <- _. exact H2.
    - intros Hk. change (Some "e-p3" = Some (id t)) in Hk.
      injection Hk as Hk. congruence. }
  split; [apply Hother; [reflexivity | vm_compute; discriminate ..]|].
  split; [apply Hother; [reflexivity | vm_compute; discriminate ..]|].
  split; [apply Hother; [reflexivity | vm_compute; discriminate ..]|].
  apply Hnone. reflexivity.
Defined.

(** ** The skeleton of the graph *)

Lemma update_if_skeleton (k : string) (f : Match → Match) (t : Match) :
  (∀ m, skeleton (f m) = skeleton m) →
  skeleton (update_if k f t) = skeleton t.
Proof. intros Hf. unfold update_if. by case_bool_decide. Qed.

Lemma write_slot_skeleton d T m : skeleton (write_slot d T m) = skeleton m.
Proof. by destruct d. Qed.

Lemma winner_steps_skeleton (g : MatchesByConfRound) pending_ match_ team W L
    t :
  skeleton (winner_steps g pending_ match_ team W L t) = skeleton t.
Proof.
  unfold winner_steps, playin_step, forward_step, pick_step.
  set (t1 := update_if (id match_) _ t).
  assert (skeleton t1 = skeleton t) as <- by (by apply update_if_skeleton).
  destruct (forward_link match_) as [[nextId ns]|].
  - set (t2 := update_if nextId _ t1).
    assert (skeleton t2 = skeleton t1) as <-
      by (apply update_if_skeleton; intros m; apply write_slot_skeleton).
    destruct (playin_target g match_); [|done].
    apply update_if_skeleton. intros m. apply write_slot_skeleton.
  - destruct (playin_target g match_); [|done].
    apply update_if_skeleton. intros m. apply write_slot_skeleton.
Qed.

Lemma graph_map_keeps_skeleton (f : Match → Match) (g : MatchesByConfRound) :
  (∀ m, skeleton (f m) = skeleton m) →
  (∀ q, skeleton <$> match_at (graph_map f g) q = skeleton <$> match_at g q)
  ∧ (unique_ids g → unique_ids (graph_map f g)).
Proof.
  intros Hf. split.
  - intros q. rewrite match_at_graph_map.
    destruct (match_at g q) as [m|]; simpl; [|done]. by rewrite Hf.
  - intros Hu p q m1 m2. rewrite !match_at_graph_map.
    destruct (match_at g p) as [n1|] eqn:Hp; simpl; [|done].
    destruct (match_at g q) as [n2|] eqn:Hq; simpl; [|done].
    intros [= <-] [= <-] Hid. apply (Hu p q n1 n2 Hp Hq).
    pose proof (Hf n1) as H1. pose proof (Hf n2) as H2.
    unfold skeleton in H1, H2. congruence.
Qed.

(** X2. The local mutations of the three match handlers keep the skeleton
    of the graph: the same positions hold matches, and every match keeps
    its id, bracket id, conference, round, slot and forward link.  In
    particular ids that were unique stay unique. *)
Theorem X2_handlers_keep_skeleton env st :
  (∀ match_ team st1 req,
     handleSetWinner_local env st match_ team = Some (st1, req) →
     keeps_skeleton st st1)
  ∧ (∀ match_ st1 req,
       handleUndo_local env st match_ = Some (st1, req) →
       keeps_skeleton st st1)
  ∧ (∀ match_ gamesValue st1 req,
       handleSelectGames_local env st match_ gamesValue = (st1, req) →
       keeps_skeleton st st1).
Proof.
  split; [|split].
  - intros match_ team st1 req Hrun g Hg.
    destruct (set_winner_run_inv _ _ _ _ _ _ Hrun)
      as (bid & g' & W & L & _ & Hg' & _ & _ & _ & _ & _ & _ & ->).
    assert (g' = g) as -> by congruence.
    eexists. split; [reflexivity|].
    apply graph_map_keeps_skeleton. intros m. apply winner_steps_skeleton.
  - intros match_ st1 req Hrun g Hg. unfold handleUndo_local in Hrun.
    destruct (truthy (bracketId env)) as [bid|]; simpl in Hrun; [|done].
    rewrite Hg in Hrun. simpl in Hrun.
    destruct (decide (isAdmin env && isMasterBracket st = true));
      [rewrite option_guard_True in Hrun by done
      |by rewrite option_guard_False in Hrun].
    simpl in Hrun. injection Hrun as <- _.
    eexists. split; [simpl; rewrite Hg; reflexivity|].
    apply graph_map_keeps_skeleton. intros m. by apply update_if_skeleton.
  - intros match_ gamesValue st1 req Hrun g Hg.
    unfold handleSelectGames_local in Hrun. rewrite Hg in Hrun.
    assert (keeps_skeleton st st) as Hsame.
    { intros g0 Hg0. exists g0. by repeat split. }
    destruct (truthy (bracketId env)) as [bid|];
      [|injection Hrun as <- _; by apply Hsame].
    destruct (canEdit env st); [|injection Hrun as <- _; by apply Hsame].
    case_bool_decide; [injection Hrun as <- _; by apply Hsame|].
    destruct (truthy (predicted_winner match_)) as [winner|];
      injection Hrun as <- _.
    + eexists. split; [simpl; rewrite Hg; reflexivity|].
      apply graph_map_keeps_skeleton. intros m. by apply update_if_skeleton.
    + exists g. by repeat split.
Qed.

Lemma X2_keep_skeleton_witness :
  unique_ids sample_graph
  ∧ ∃ st1 req (g1 : MatchesByConfRound),
      handleSetWinner_local sample_env sample_state playin2 B
      = Some (st1, req)
      ∧ matches st1 = Some g1
      ∧ unique_ids g1
      ∧ skeleton <$> match_at g1 ("east", "0", 2%nat) = Some (skeleton playin3).
Proof.
  assert (unique_ids sample_graph) as Hu
    by (apply unique_idsb_sound; vm_compute; reflexivity).
  split; [exact Hu|].
  destruct (handleSetWinner_local sample_env sample_state playin2 B)
    as [[st1 req]|] eqn:Hrun; [|vm_compute in Hrun; discriminate].
  destruct (proj1 (X2_handlers_keep_skeleton sample_env sample_state)
              playin2 B st1 req Hrun sample_graph eq_refl)
    as (g1 & Hg1 & Hskel & Hunique).
  exists st1, req, g1. split; [reflexivity|]. split; [exact Hg1|].
  split; [exact (Hunique Hu)|]. rewrite Hskel. reflexivity.
Defined.

(** ** The target of the forward link after a pick *)

Lemma pick_step_side_fields match_ W n s t :
  side_fields s (pick_step match_ W n t) = side_fields s t.
Proof. unfold pick_step, update_if. case_bool_decide; by destruct s. Qed.

Lemma winner_steps_target (g : MatchesByConfRound) pending_ match_ team W L
    nextId ns t :
  forward_link match_ = Some (nextId, ns) →
  id t = nextId →
  ¬ (playin_target g match_ = Some nextId ∧ ns = slot_b) →
  let t' := winner_steps g pending_ match_ team W L t in
  side_fields (destSlotLetter ns) t' = copied_fields team W match_
  ∧ predicted_winner t' = None
  ∧ predicted_winner_games t' = None
  ∧ (playin_target g match_ = None →
     side_fields (other_side (destSlotLetter ns)) t'
     = side_fields (other_side (destSlotLetter ns)) t).
Proof.
  intros Hlink Hid Hclash. unfold winner_steps.
  set (t1 := pick_step match_ W _ t).
  assert (id t1 = nextId) as Hid1 by (by unfold t1; rewrite pick_step_id).
  set (t2 := write_slot (destSlotLetter ns) (copied_fields team W match_) t1).
  assert (forward_step match_ team W t1 = t2) as ->.
  { unfold forward_step. rewrite Hlink. unfold update_if.
    by rewrite bool_decide_eq_true_2. }
  assert (side_fields (destSlotLetter ns) t2 = copied_fields team W match_)
    as Hfields by apply side_fields_write_slot.
  assert (predicted_winner t2 = None ∧ predicted_winner_games t2 = None)
    as [Hw Hn] by apply write_slot_prediction.
  assert (side_fields (other_side (destSlotLetter ns)) t2
          = side_fields (other_side (destSlotLetter ns)) t) as Hother.
  { unfold t2. rewrite side_fields_write_slot_other.
    apply pick_step_side_fields. }
  unfold playin_step.
  destruct (playin_target g match_) as [k|] eqn:Hk; [|done].
  unfold update_if. case_bool_decide as Hsame; [|done].
  assert (id t2 = nextId) as Hid2 by (by unfold t2; rewrite write_slot_id).
  destruct ns; [|destruct Hclash; split; congruence].
  split; [|by repeat split; try exact (proj1 (write_slot_prediction B _ _));
                  try exact (proj2 (write_slot_prediction B _ _))].
  rewrite <- Hfields. exact (side_fields_write_slot_other B _ _).
Qed.

Lemma truthyJs_orNull (x : JsOpt string) : truthyJs (orNull x) = truthyJs x.
Proof. by destruct x. Qed.

(** What a card shows of a side depends on the fields of that side only,
    and not on whether an absent field is undefined or null. *)
Lemma shown_of_copied_fields (src t' : Match) (s d : Side) (W : string) :
  team_of s src = Some W →
  side_fields d t' = copied_fields s W src →
  getTeamName t' d = getTeamName src s
  ∧ getTeamColors t' d = getTeamColors src s
  ∧ ∀ w, buildWinnerStyle w t' d = buildWinnerStyle w src s.
Proof.
  intros HW Hfields.
  assert (getTeamColors t' d = getTeamColors src s) as Hcolors.
  { unfold getTeamColors. rewrite Hfields. simpl.
    by rewrite !truthyJs_orNull. }
  split; [|split; [exact Hcolors|]].
  - unfold getTeamName. rewrite Hfields. simpl. rewrite truthyJs_orNull.
    unfold team_of in HW. by rewrite HW.
  - intros w. unfold buildWinnerStyle. by rewrite Hcolors.
Qed.

(** X3. After a pick, the card of the match the winner goes to shows, in
    the slot named by the forward link, the name, the colours and the
    winner style that the card of the picked match shows for the picked
    side, unless the match is the round-0, slot-2 match and its link
    names team B of the game-3 match; game 3 of the play-in shows, in
    every case, those of the loser of the round-0, slot-2 match in its
    team-B slot. *)
Theorem X3_target_card_shows_the_team env st match_ team st1 req
    (g : MatchesByConfRound) :
  handleSetWinner_local env st match_ team = Some (st1, req) →
  matches st = Some g →
  ∃ g1 : MatchesByConfRound,
    matches st1 = Some g1
    ∧ (∀ nextId ns q t,
         forward_link match_ = Some (nextId, ns) →
         ¬ (playin_target g match_ = Some nextId ∧ ns = slot_b) →
         match_at g q = Some t → id t = nextId →
         ∃ t',
           match_at g1 q = Some t'
           ∧ getTeamName t' (destSlotLetter ns) = getTeamName match_ team
           ∧ getTeamColors t' (destSlotLetter ns) = getTeamColors match_ team
           ∧ ∀ w, buildWinnerStyle w t' (destSlotLetter ns)
                  = buildWinnerStyle w match_ team)
    ∧ (∀ game3 q t,
         round match_ = 0%Z → slot match_ = 2%Z →
         find_game3 g (conference match_) = Some game3 →
         match_at g q = Some t → id t = id game3 →
         ∃ t',
           match_at g1 q = Some t'
           ∧ getTeamName t' B = getTeamName match_ (other_side team)
           ∧ getTeamColors t' B = getTeamColors match_ (other_side team)
           ∧ ∀ w, buildWinnerStyle w t' B
                  = buildWinnerStyle w match_ (other_side team)).
Proof.
  intros Hrun Hg.
  destruct (set_winner_run_inv _ _ _ _ _ _ Hrun)
    as (bid & g' & W & L & _ & Hg' & _ & _ & HW & HL & _ & _ & ->).
  assert (g' = g) as -> by congruence.
  eexists. split; [reflexivity|]. split.
  - intros nextId ns q t Hlink Hclash Hq Hid.
    rewrite match_at_graph_map, Hq. simpl. eexists. split; [reflexivity|].
    destruct (winner_steps_target g (pendingGames st) match_ team W L nextId
                ns t Hlink Hid Hclash) as (Hfields & _).
    by apply (shown_of_copied_fields match_ _ team _ W).
  - intros game3 q t Hround Hslot Hfind Hq Hid.
    rewrite match_at_graph_map, Hq. simpl. eexists. split; [reflexivity|].
    destruct (winner_steps_game3 g (pendingGames st) match_ team W L game3 t
                Hround Hslot Hfind Hid) as [t0 ->].
    apply (shown_of_copied_fields match_ _ (other_side team) B L HL).
    exact (side_fields_write_slot B _ _).
Qed.

Lemma X3_target_card_witness :
  ∃ st1 req (g1 : MatchesByConfRound) t5 t3,
    handleSetWinner_local sample_env sample_state playin2 A = Some (st1, req)
    ∧ matches st1 = Some g1
    ∧ match_at g1 ("east", "1", 1%nat) = Some t5
    ∧ getTeamName t5 B = "Team MIA"
    ∧ match_at g1 ("east", "0", 2%nat) = Some t3
    ∧ getTeamName t3 B = "Team PHI".
Proof.
  destruct (handleSetWinner_local sample_env sample_state playin2 A)
    as [[st1 req]|] eqn:Hrun; [|vm_compute in Hrun; discriminate].
  destruct (X3_target_card_shows_the_team sample_env sample_state playin2 A
              st1 req sample_graph Hrun eq_refl)
    as (g1 & Hg1 & Hforward & Hplayin).
  destruct (Hforward "e-r1-5" slot_b ("east", "1", 1%nat) series5)
    as (t5 & Ht5 & Hname5 & _);
    [reflexivity | intros [Hk _]; vm_compute in Hk; discriminate
    | reflexivity | reflexivity |].
  destruct (Hplayin playin3 ("east", "0", 2%nat) playin3)
    as (t3 & Ht3 & Hname3 & _);
    [reflexivity | reflexivity | reflexivity | reflexivity | reflexivity |].
  exists st1, req, g1, t5, t3. split; [reflexivity|]. split; [exact Hg1|].
  split; [exact Ht5|].
  split; [exact (eq_trans Hname5 eq_refl)|].
  split; [exact Ht3|]. exact (eq_trans Hname3 eq_refl).
Defined.

(** ** Picks and undos that reopen the bracket *)

Lemma undecided_blocks (g : MatchesByConfRound) p m :
  match_at g p = Some m → has_teams m →
  truthy (predicted_winner m) = None →
  allDecided (Some g) = false.
Proof.
  intros Hm Hteams Hnone. apply not_true_is_false.
  intros [_ Hall]%allDecided_spec.
  pose proof (proj1 (match_decided_spec m) (Hall p m Hm) Hteams)
    as [[w Hw] _].
  congruence.
Qed.

Lemma not_decided_no_save env st :
  allDecided (matches st) = false → canSave env st = false.
Proof. intros Hall. unfold canSave. rewrite Hall. by rewrite andb_false_r. Qed.

(** X4. A pick reopens the match it feeds.  When the picked match has a
    forward link, the play-in loser rule does not apply to it and the
    other slot of the target holds a team, the target ends with both teams
    and no
    predicted winner, whatever was predicted there before and even if the
    same team is picked again; so [allDecided] and [canSave] are false
    until a winner is picked in the target. *)
Theorem X4_pick_reopens_target env st match_ team st1 req
    (g : MatchesByConfRound) nextId ns q t :
  handleSetWinner_local env st match_ team = Some (st1, req) →
  matches st = Some g →
  forward_link match_ = Some (nextId, ns) →
  playin_target g match_ = None →
  match_at g q = Some t →
  id t = nextId →
  is_Some (truthy (team_of (other_side (destSlotLetter ns)) t)) →
  ∃ (g1 : MatchesByConfRound) t',
    matches st1 = Some g1
    ∧ match_at g1 q = Some t'
    ∧ has_teams t'
    ∧ predicted_winner t' = None
    ∧ allDecided (matches st1) = false
    ∧ canSave env st1 = false.
Proof.
  intros Hrun Hg Hlink Hplayin Hq Hid Hother.
  destruct (set_winner_run_inv _ _ _ _ _ _ Hrun)
    as (bid & g' & W & L & _ & Hg' & _ & _ & HW & _ & HWne & _ & Hst1).
  assert (g' = g) as -> by congruence.
  set (G := graph_map (winner_steps g (pendingGames st) match_ team W L) g)
    in *.
  assert (matches st1 = Some G) as Hg1 by (by rewrite Hst1).
  clear Hst1.
  set (t' := winner_steps g (pendingGames st) match_ team W L t).
  assert (match_at G q = Some t') as Ht'
    by (unfold G; by rewrite match_at_graph_map, Hq).
  destruct (winner_steps_target g (pendingGames st) match_ team W L nextId ns
              t Hlink Hid) as (Hfields & Hw & _ & Hrest).
  { intros [Hk _]. congruence. }
  specialize (Hrest Hplayin). fold t' in Hfields, Hw, Hrest.
  assert (has_teams t') as Hteams.
  { assert (is_Some (truthy (team_of (destSlotLetter ns) t'))) as Hdest.
    { unfold team_of. rewrite Hfields. exists W.
      apply truthy_Some. split; [reflexivity | exact HWne]. }
    assert (is_Some (truthy (team_of (other_side (destSlotLetter ns)) t')))
      as Hoth by (unfold team_of in *; by rewrite Hrest).
    unfold has_teams. unfold team_of in Hdest, Hoth.
    destruct (destSlotLetter ns); simpl in Hdest, Hoth; by split. }
  assert (allDecided (matches st1) = false) as Hall.
  { rewrite Hg1. apply (undecided_blocks G q t' Ht' Hteams). by rewrite Hw. }
  exists G, t'. repeat split; try done; try apply Hteams.
  by apply not_decided_no_save.
Qed.

Lemma X4_pick_reopens_witness :
  predicted_winner semi9 = Some "DET"
  ∧ ∃ st1 req (g1 : MatchesByConfRound) t',
      handleSetWinner_local sample_env sample_state series5 A
      = Some (st1, req)
      ∧ matches st1 = Some g1
      ∧ match_at g1 ("east", "2", 0%nat) = Some t'
      ∧ has_teams t'
      ∧ predicted_winner t' = None
      ∧ canSave sample_env st1 = false.
Proof.
  split; [reflexivity|].
  destruct (handleSetWinner_local sample_env sample_state series5 A)
    as [[st1 req]|] eqn:Hrun; [|vm_compute in Hrun; discriminate].
  destruct (X4_pick_reopens_target sample_env sample_state series5 A st1 req
              sample_graph "e-r2-9" slot_a ("east", "2", 0%nat) semi9 Hrun)
    as (g1 & t' & Hg1 & Ht' & Hteams & Hw & _ & Hsave);
    [reflexivity | reflexivity | reflexivity | reflexivity | reflexivity
    | eexists; reflexivity |].
  exists st1, req, g1, t'. split; [reflexivity|]. split; [exact Hg1|].
  split; [exact Ht'|]. split; [exact Hteams|]. split; [exact Hw|].
  exact Hsave.
Defined.

(** X5. An undo of a match that has both teams leaves it without a
    predicted winner, so [allDecided] and [canSave] are false after the
    local mutation. *)
Theorem X5_undo_reopens_bracket env st match_ st1 req
    (g : MatchesByConfRound) p t :
  handleUndo_local env st match_ = Some (st1, req) →
  matches st = Some g →
  match_at g p = Some t →
  id t = id match_ →
  has_teams t →
  allDecided (matches st1) = false ∧ canSave env st1 = false.
Proof.
  intros Hrun Hg Hp Hid Hteams. unfold handleUndo_local in Hrun.
  destruct (truthy (bracketId env)) as [bid|]; simpl in Hrun; [|done].
  rewrite Hg in Hrun. simpl in Hrun.
  destruct (decide (isAdmin env && isMasterBracket st = true));
    [rewrite option_guard_True in Hrun by done
    |by rewrite option_guard_False in Hrun].
  simpl in Hrun. injection Hrun as Hst1 _.
  set (G := graph_map (update_if (id match_) (with_prediction None None)) g).
  assert (matches st1 = Some G) as Hg1.
  { rewrite <- Hst1. simpl. by rewrite Hg. }
  clear Hst1.
  assert (allDecided (matches st1) = false) as Hall.
  { rewrite Hg1.
    apply (undecided_blocks G p (with_prediction None None t)).
    - unfold G. rewrite match_at_graph_map, Hp. simpl. unfold update_if.
      by rewrite bool_decide_eq_true_2.
    - exact Hteams.
    - reflexivity. }
  split; [exact Hall | by apply not_decided_no_save].
Qed.

Lemma X5_undo_reopens_witness :
  allDecided (Some decided_graph) = true
  ∧ ∃ st1 req,
      handleUndo_local admin_env
        (setMatches (λ _, Some decided_graph) master_state) series5
      = Some (st1, req)
      ∧ allDecided (matches st1) = false.
Proof.
  split; [vm_compute; reflexivity|].
  destruct (handleUndo_local admin_env
              (setMatches (λ _, Some decided_graph) master_state) series5)
    as [[st1 req]|] eqn:Hrun; [|vm_compute in Hrun; discriminate].
  exists st1, req. split; [reflexivity|].
  apply (X5_undo_reopens_bracket admin_env
           (setMatches (λ _, Some decided_graph) master_state) series5 st1
           req decided_graph ("east", "1", 1%nat) series5 Hrun);
    [reflexivity | reflexivity | reflexivity | split; eexists; reflexivity].
Defined.

(** ** Handlers one after the other *)

(** X6. Choosing a length before a winner and then picking the winner: on
    a match of a round other than 0 with both teams and no recorded
    winner, [handleSelectGames] sends nothing, the selector then shows the
    chosen value (when no length is recorded), and the next
    [handleSetWinner] sends and records exactly that value and drops the
    pending entry. *)
Theorem X6_chosen_length_is_sent_with_the_pick env st match_ team gamesValue
    bid (g : MatchesByConfRound) :
  truthy (bracketId env) = Some bid →
  matches st = Some g →
  canEdit env st = true →
  has_teams match_ →
  round match_ ≠ 0%Z →
  truthy (predicted_winner match_) = None →
  ∀ patched reload,
    ∃ stA st1 W,
      handleSelectGames env st match_ gamesValue patched reload = (stA, [])
      ∧ matches stA = Some g
      ∧ (predicted_winner_games match_ = None →
         select_value stA match_ = gamesValue)
      ∧ team_of team match_ = Some W
      ∧ handleSetWinner_local env stA match_ team
        = Some (st1, PATCH_match bid (id match_) (set_winner W gamesValue))
      ∧ pendingGames st1 !! id match_ = None.
Proof.
  intros Hbid Hg Hedit Hteams Hround Hnone patched reload.
  set (stA := setPendingGames (λ prev, <[id match_ := gamesValue]> prev) st).
  assert (handleSelectGames env st match_ gamesValue patched reload
          = (stA, [])) as Hsel.
  { unfold handleSelectGames, handleSelectGames_local.
    rewrite Hbid, Hg, Hedit, Hnone. by rewrite bool_decide_eq_false_2. }
  assert (pendingGames stA !! id match_ = Some gamesValue) as Hpending
    by apply lookup_insert_eq.
  assert (matches stA = Some g) as HgA by exact Hg.
  assert (canEdit env stA = true) as HeditA by exact Hedit.
  clearbody stA.
  destruct (has_teams_sides match_ team Hteams)
    as (ta & tb & Ha & Hb & HW & _).
  set (W := match team with A => ta | B => tb end) in *.
  assert (W ≠ "") as HWne.
  { apply truthy_Some in Ha as [_ Ha]. apply truthy_Some in Hb as [_ Hb].
    unfold W. by destruct team. }
  assert (predicted_winner match_ ≠ Some W) as Hnew.
  { intros Hw. rewrite Hw in Hnone. unfold truthy in Hnone.
    by rewrite bool_decide_eq_false_2 in Hnone. }
  assert (winner_games (pendingGames stA) match_ W = gamesValue) as Hgames.
  { unfold winner_games. rewrite bool_decide_eq_false_2 by done.
    rewrite bool_decide_eq_false_2 by done. by rewrite Hpending. }
  pose proof (handleSetWinner_local_eq env stA g match_ team bid ta tb
                Hbid HgA HeditA Ha Hb) as Hrun.
  simpl in Hrun. fold W in Hrun. rewrite Hgames in Hrun.
  eexists stA, _, W. split; [exact Hsel|]. split; [exact HgA|].
  split; [|split; [exact HW|split; [exact Hrun|]]].
  - intros Hlen. unfold select_value, selectedGames.
    by rewrite Hlen, Hpending.
  - apply lookup_delete_eq.
Qed.

Lemma X6_chosen_length_witness :
  has_teams series6 ∧ round series6 ≠ 0%Z
  ∧ truthy (predicted_winner series6) = None
  ∧ ∃ stA st1,
      handleSelectGames sample_env sample_state series6 7 (Resolved ())
        (Resolved server_response) = (stA, [])
      ∧ select_value stA series6 = 7%Z
      ∧ handleSetWinner_local sample_env stA series6 B
        = Some (st1, PATCH_match "bracket-1" "e-r1-6" (set_winner "IND" 7%Z)).
Proof.
  assert (has_teams series6) as Hteams by (split; eexists; reflexivity).
  assert (round series6 ≠ 0%Z) as Hround by (vm_compute; discriminate).
  split; [exact Hteams|]. split; [exact Hround|]. split; [reflexivity|].
  destruct (X6_chosen_length_is_sent_with_the_pick sample_env sample_state
              series6 B 7 "bracket-1" sample_graph eq_refl eq_refl eq_refl
              Hteams Hround eq_refl (Resolved ()) (Resolved server_response))
    as (stA & st1 & W & Hsel & _ & Hshown & HW & Hrun & _).
  assert (W = "IND") as -> by (vm_compute in HW; congruence).
  exists stA, st1. split; [exact Hsel|]. split; [by apply Hshown|].
  exact Hrun.
Defined.

Lemma with_prediction_same (m : Match) :
  with_prediction (predicted_winner m) (predicted_winner_games m) m = m.
Proof. by destruct m. Qed.

(** X7. On the master bracket, an admin's pick on a match without a
    forward link, to which the play-in loser rule does not apply and which
    had no prediction, is taken back by the local mutation of the undo of that match: the
    graph is again the graph before the pick. *)
Theorem X7_undo_takes_back_a_terminal_pick env st match_ team bid
    (g : MatchesByConfRound) p :
  truthy (bracketId env) = Some bid →
  matches st = Some g →
  isAdmin env && isMasterBracket st = true →
  unique_ids g →
  match_at g p = Some match_ →
  has_teams match_ →
  forward_link match_ = None →
  playin_target g match_ = None →
  predicted_winner match_ = None →
  predicted_winner_games match_ = None →
  ∀ reload,
    ∃ st1 req1 (g1 : MatchesByConfRound) match1 st2 req2,
      handleSetWinner env st match_ team (Resolved ()) reload = (st1, [req1])
      ∧ matches st1 = Some g1
      ∧ match_at g1 p = Some match1
      ∧ is_Some (predicted_winner match1)
      ∧ handleUndo_local env st1 match1 = Some (st2, req2)
      ∧ matches st2 = Some g.
Proof.
  intros Hbid Hg Hperm Hu Hp Hteams Hlink Hplayin Hw Hn reload.
  assert (canEdit env st = true) as Hedit.
  { unfold canEdit. rewrite Hperm. apply orb_true_r. }
  destruct (has_teams_sides match_ team Hteams)
    as (ta & tb & Ha & Hb & _).
  pose proof (handleSetWinner_local_eq env st g match_ team bid ta tb
                Hbid Hg Hedit Ha Hb) as Hrun.
  simpl in Hrun.
  set (W := match team with A => ta | B => tb end) in *.
  set (L := match team with A => tb | B => ta end) in *.
  set (U := winner_steps g (pendingGames st) match_ team W L) in *.
  set (n := winner_games (pendingGames st) match_ W) in *.
  assert (∀ t, U t = update_if (id match_)
                       (with_prediction (Some W) (Some n)) t) as HU.
  { intros t. unfold U, winner_steps, playin_step, forward_step.
    by rewrite Hlink, Hplayin. }
  set (match1 := with_prediction (Some W) (Some n) match_).
  unfold handleSetWinner. rewrite Hrun.
  set (st1 := setUpdatingMatchId None _).
  assert (matches st1 = Some (graph_map U g)) as Hg1 by reflexivity.
  assert (isAdmin env && isMasterBracket st1 = true) as Hperm1 by exact Hperm.
  eexists st1, _, (graph_map U g), match1, _, _.
  split; [reflexivity|]. split; [exact Hg1|]. split.
  { rewrite match_at_graph_map, Hp. simpl. rewrite HU. unfold update_if.
    by rewrite bool_decide_eq_true_2. }
  split; [by eexists|].
  unfold handleUndo_local. rewrite Hbid, Hg1. simpl.
  rewrite option_guard_True by done. simpl. split; [reflexivity|].
  change (Some (graph_map
                  (update_if (id match_) (with_prediction None None))
                  (graph_map U g)) = Some g).
  f_equal. rewrite graph_map_compose.
  rewrite <- (graph_map_id g) at 2. apply graph_map_ext.
  intros q t Hq. simpl. rewrite HU. unfold update_if at 2.
  case_bool_decide as Hid.
  - pose proof (unique_ids_same _ _ _ _ _ Hu Hq Hp Hid) as ->.
    unfold update_if. rewrite bool_decide_eq_true_2 by done.
    rewrite <- (with_prediction_same match_) at 2. by rewrite Hw, Hn.
  - unfold update_if. by rewrite bool_decide_eq_false_2.
Qed.

Lemma X7_undo_takes_back_witness :
  ∃ st1 req1 (g1 : MatchesByConfRound) match1 st2 req2,
    handleSetWinner admin_env
      (setMatches
         (λ _, Some {[ "nba" := {[ "4" := [sample_match "f-11" 4 11
                                             (Some "BOS") (Some "DEN") None
                                             None Null Null] ]} ]})
         master_state)
      (sample_match "f-11" 4 11 (Some "BOS") (Some "DEN") None None Null Null)
      A (Resolved ()) (Resolved server_response) = (st1, [req1])
    ∧ matches st1 = Some g1
    ∧ match_at g1 ("nba", "4", 0%nat) = Some match1
    ∧ is_Some (predicted_winner match1)
    ∧ handleUndo_local admin_env st1 match1 = Some (st2, req2)
    ∧ matches st2
      = Some {[ "nba" := {[ "4" := [sample_match "f-11" 4 11 (Some "BOS")
                                      (Some "DEN") None None Null Null] ]} ]}.
Proof.
  apply (X7_undo_takes_back_a_terminal_pick admin_env _ _ A "bracket-0" _
           ("nba", "4", 0%nat)).
  - reflexivity.
  - reflexivity.
  - reflexivity.
  - apply unique_idsb_sound. vm_compute. reflexivity.
  - reflexivity.
  - split; eexists; reflexivity.
  - reflexivity.
  - reflexivity.
  - reflexivity.
  - reflexivity.
Defined.

(** ** When the reload fails too *)

Lemma recover_rejected env msg fallback msg2 st bid :
  truthy (bracketId env) = Some bid →
  ∃ st',
    recover env msg fallback (Rejected msg2) st = (st', [GET_bracket bid])
    ∧ error st' = Some (orElse msg2 "Failed to load bracket")
    ∧ matches st' = matches st
    ∧ bracket st' = bracket st
    ∧ pendingGames st' = pendingGames st.
Proof.
  intros Hbid. unfold recover, loadBracket, loadBracket_begin.
  rewrite Hbid. simpl. eexists. by repeat split.
Qed.

(** X8. When the PATCH of a match handler is rejected and the reload is
    rejected as well, the optimistic graph and pending-games cache of the
    local mutation stay, and the error left in the state is that of the
    reload (its message, or "Failed to load bracket"), not that of the
    PATCH. *)
Theorem X8_failed_reload_keeps_optimistic_state env msg msg2 bid :
  truthy (bracketId env) = Some bid →
  (∀ st match_ team st1 req,
     handleSetWinner_local env st match_ team = Some (st1, req) →
     ∃ st',
       handleSetWinner env st match_ team (Rejected msg) (Rejected msg2)
       = (st', [req; GET_bracket bid])
       ∧ matches st' = matches st1
       ∧ pendingGames st' = pendingGames st1
       ∧ error st' = Some (orElse msg2 "Failed to load bracket"))
  ∧ (∀ st match_ gamesValue st1 req,
       handleSelectGames_local env st match_ gamesValue = (st1, Some req) →
       ∃ st',
         handleSelectGames env st match_ gamesValue (Rejected msg)
           (Rejected msg2)
         = (st', [req; GET_bracket bid])
         ∧ matches st' = matches st1
         ∧ pendingGames st' = pendingGames st1
         ∧ error st' = Some (orElse msg2 "Failed to load bracket"))
  ∧ (∀ st match_ st1 req,
       handleUndo_local env st match_ = Some (st1, req) →
       ∃ st',
         handleUndo env st match_ (Rejected msg) (Rejected msg2)
         = (st', [req; GET_bracket bid])
         ∧ matches st' = matches st1
         ∧ pendingGames st' = pendingGames st1
         ∧ error st' = Some (orElse msg2 "Failed to load bracket")).
Proof.
  intros Hbid. split; [|split].
  - intros st match_ team st1 req Hrun.
    destruct (recover_rejected env msg "Failed to update match" msg2 st1 bid
                Hbid) as (st' & Hrec & Herr & Hg & _ & Hp).
    unfold handleSetWinner. rewrite Hrun, Hrec. by eexists.
  - intros st match_ gamesValue st1 req Hrun.
    destruct (recover_rejected env msg "Failed to update games" msg2 st1 bid
                Hbid) as (st' & Hrec & Herr & Hg & _ & Hp).
    unfold handleSelectGames. rewrite Hrun, Hrec. by eexists.
  - intros st match_ st1 req Hrun.
    destruct (recover_rejected env msg "Failed to undo prediction" msg2 st1
                bid Hbid) as (st' & Hrec & Herr & Hg & _ & Hp).
    unfold handleUndo. rewrite Hrun, Hrec. by eexists.
Qed.

Lemma X8_failed_reload_witness :
  truthy (bracketId sample_env) = Some "bracket-1"
  ∧ ∃ st1 req st',
      handleSetWinner_local sample_env sample_state series6 A
      = Some (st1, req)
      ∧ handleSetWinner sample_env sample_state series6 A
          (Rejected "Request failed") (Rejected "")
        = (st', [req; GET_bracket "bracket-1"])
      ∧ matches st' = matches st1
      ∧ error st' = Some "Failed to load bracket".
Proof.
  split; [reflexivity|].
  destruct (handleSetWinner_local sample_env sample_state series6 A)
    as [[st1 req]|] eqn:Hrun; [|vm_compute in Hrun; discriminate].
  destruct (proj1 (X8_failed_reload_keeps_optimistic_state sample_env
                     "Request failed" "" "bracket-1" eq_refl)
              sample_state series6 A st1 req Hrun)
    as (st' & Hfull & Hg & _ & Herr).
  exists st1, req, st'. split; [reflexivity|]. split; [exact Hfull|].
  split; [exact Hg | exact Herr].
Defined.

(** ** The busy marker *)

(** X9. [updatingMatchId] is the id of the match while a match handler
    awaits its PATCH, and is null again when the handler has finished,
    whatever the outcomes of the PATCH and of the reload. *)
Theorem X9_busy_marker_is_released env st match_ :
  (∀ team st1 req,
     handleSetWinner_local env st match_ team = Some (st1, req) →
     updatingMatchId st1 = Some (id match_)
     ∧ ∀ patched reload,
         updatingMatchId
           (handleSetWinner env st match_ team patched reload).1 = None)
  ∧ (∀ gamesValue st1 req,
       handleSelectGames_local env st match_ gamesValue = (st1, Some req) →
       updatingMatchId st1 = Some (id match_)
       ∧ ∀ patched reload,
           updatingMatchId
             (handleSelectGames env st match_ gamesValue patched reload).1
           = None)
  ∧ (∀ st1 req,
       handleUndo_local env st match_ = Some (st1, req) →
       updatingMatchId st1 = Some (id match_)
       ∧ ∀ patched reload,
           updatingMatchId (handleUndo env st match_ patched reload).1
           = None).
Proof.
  split; [|split].
  - intros team st1 req Hrun. split.
    + destruct (set_winner_run_inv _ _ _ _ _ _ Hrun)
        as (bid & g & W & L & _ & _ & _ & _ & _ & _ & _ & _ & ->).
      reflexivity.
    + intros patched reload. unfold handleSetWinner. rewrite Hrun.
      destruct patched as [|msg]; [reflexivity|]. unfold recover.
      by destruct (loadBracket env true reload _).
  - intros gamesValue st1 req Hrun. split.
    + unfold handleSelectGames_local in Hrun.
      destruct (truthy (bracketId env)), (matches st), (canEdit env st);
        try done.
      case_bool_decide; [done|].
      destruct (truthy (predicted_winner match_)); [|done].
      by injection Hrun as <- _.
    + intros patched reload. unfold handleSelectGames. rewrite Hrun.
      destruct patched as [|msg]; [reflexivity|]. unfold recover.
      by destruct (loadBracket env true reload _).
  - intros st1 req Hrun. split.
    + unfold handleUndo_local in Hrun.
      destruct (truthy (bracketId env)); simpl in Hrun; [|done].
      destruct (matches st); simpl in Hrun; [|done].
      destruct (decide (isAdmin env && isMasterBracket st = true));
        [rewrite option_guard_True in Hrun by done
        |by rewrite option_guard_False in Hrun].
      simpl in Hrun. by injection Hrun as <- _.
    + intros patched reload. unfold handleUndo. rewrite Hrun.
      destruct patched as [|msg]; unfold recover;
        by destruct (loadBracket env true reload _).
Qed.

Lemma X9_busy_marker_witness :
  ∃ st1 req,
    handleSetWinner_local sample_env sample_state series6 A = Some (st1, req)
    ∧ updatingMatchId st1 = Some "e-r1-6"
    ∧ updatingMatchId
        (handleSetWinner sample_env sample_state series6 A
           (Rejected "Request failed") (Rejected "offline")).1 = None.
Proof.
  destruct (handleSetWinner_local sample_env sample_state series6 A)
    as [[st1 req]|] eqn:Hrun; [|vm_compute in Hrun; discriminate].
  destruct (proj1 (X9_busy_marker_is_released sample_env sample_state
                     series6) A st1 req Hrun) as [Hbusy Hfree].
  exists st1, req. split; [reflexivity|]. split; [exact Hbusy|].
  apply Hfree.
Defined.

(** ** What the card offers and what the handlers do *)

Lemma grid_rendered_spec env st :
  grid_rendered env st = true →
  is_Some (truthy (bracketId env)) ∧ is_Some (matches st).
Proof.
  unfold grid_rendered. rewrite !andb_true_iff, !bool_decide_eq_true.
  by intros [[[Hbid _] _] Hg].
Qed.

Lemma hasTeams_spec (m : Match) : hasTeams m = true ↔ has_teams m.
Proof.
  unfold hasTeams, has_teams.
  by rewrite andb_true_iff, !bool_decide_eq_true.
Qed.

(** X10. In the rendered grid a team button carries a click handler
    exactly when [handleSetWinner] on that match and side gets past its
    guards and records a pick; a button that is not disabled always
    does. *)
Theorem X10_team_button_matches_handler env st m team :
  grid_rendered env st = true →
  (team_button_clickable env st m = true
   ↔ is_Some (handleSetWinner_local env st m team))
  ∧ (team_button_disabled env st m = false →
     is_Some (handleSetWinner_local env st m team)).
Proof.
  intros [[bid Hbid] [g Hg]]%grid_rendered_spec.
  assert (team_button_clickable env st m = true
          ↔ is_Some (handleSetWinner_local env st m team)) as Hiff.
  { unfold team_button_clickable.
    rewrite andb_true_iff, hasTeams_spec. split.
    - intros [Hteams Hedit].
      destruct (set_winner_run env st g m team bid Hbid Hg Hedit Hteams)
        as (W & L & st1 & _ & _ & Hrun & _).
      rewrite Hrun. by eexists.
    - intros [[st1 req] Hrun].
      destruct (set_winner_run_inv _ _ _ _ _ _ Hrun)
        as (_ & _ & _ & _ & _ & _ & Hedit & Hteams & _).
      by split. }
  split; [exact Hiff|]. intros Hdisabled. apply Hiff.
  unfold team_button_disabled in Hdisabled. unfold team_button_clickable.
  apply orb_false_iff in Hdisabled as [Hdisabled _].
  apply orb_false_iff in Hdisabled as [Hteams Hedit].
  apply negb_false_iff in Hteams, Hedit. by rewrite Hteams, Hedit.
Qed.

Lemma X10_team_button_witness :
  grid_rendered sample_env sample_state = true
  ∧ team_button_clickable sample_env sample_state series6 = true
  ∧ is_Some (handleSetWinner_local sample_env sample_state series6 B)
  ∧ team_button_clickable sample_env sample_state series4 = false
  ∧ handleSetWinner_local sample_env sample_state series4 A = None.
Proof.
  split; [reflexivity|]. split; [reflexivity|]. split.
  - apply (proj1 (X10_team_button_matches_handler sample_env sample_state
                    series6 B eq_refl)).
    reflexivity.
  - split; [reflexivity|].
    destruct (handleSetWinner_local sample_env sample_state series4 A)
      as [r|] eqn:Hrun; [|reflexivity].
    assert (team_button_clickable sample_env sample_state series4 = true)
      as Hclick.
    { apply (proj1 (X10_team_button_matches_handler sample_env sample_state
                      series4 A eq_refl)).
      rewrite Hrun. by eexists. }
    vm_compute in Hclick. discriminate.
Defined.

(** X11. Where the grid shows an Undo button on a match, [handleUndo] on
    that match gets past its guards and sends the undo request, and after
    its local mutation no node with the id of the match shows the button
    any more. *)
Theorem X11_undo_button_matches_handler env st m :
  grid_rendered env st = true →
  undo_button_shown env st m = true →
  ∃ bid st1 (g g1 : MatchesByConfRound),
    handleUndo_local env st m = Some (st1, PATCH_match bid (id m) undo)
    ∧ matches st = Some g
    ∧ matches st1 = Some g1
    ∧ ∀ q t,
        match_at g q = Some t → id t = id m →
        ∃ t',
          match_at g1 q = Some t'
          ∧ undo_button_shown env st1 t' = false.
Proof.
  intros [[bid Hbid] [g Hg]]%grid_rendered_spec Hshown.
  unfold undo_button_shown in Hshown.
  apply andb_true_iff in Hshown as [Hperm _].
  unfold handleUndo_local. rewrite Hbid, Hg. simpl.
  rewrite option_guard_True by done. simpl.
  eexists bid, _, g, _. split; [reflexivity|]. split; [reflexivity|].
  simpl. rewrite Hg. simpl. split; [reflexivity|].
  intros q t Hq Hid. rewrite match_at_graph_map, Hq. simpl.
  eexists. split; [reflexivity|].
  unfold update_if. rewrite bool_decide_eq_true_2 by done.
  unfold undo_button_shown. simpl. apply andb_false_r.
Qed.

Lemma X11_undo_button_witness :
  grid_rendered admin_env master_state = true
  ∧ undo_button_shown admin_env master_state series5 = true
  ∧ ∃ st1 (g1 : MatchesByConfRound) t',
      handleUndo_local admin_env master_state series5
      = Some (st1, PATCH_match "bracket-0" "e-r1-5" undo)
      ∧ matches st1 = Some g1
      ∧ match_at g1 ("east", "1", 1%nat) = Some t'
      ∧ undo_button_shown admin_env st1 t' = false.
Proof.
  split; [reflexivity|]. split; [reflexivity|].
  destruct (X11_undo_button_matches_handler admin_env master_state series5
              eq_refl eq_refl)
    as (bid & st1 & g & g1 & Hrun & Hg & Hg1 & Hnodes).
  assert (bid = "bracket-0") as ->.
  { pose proof Hrun as Hbid. vm_compute in Hbid. congruence. }
  assert (g = sample_graph) as ->
    by (change (Some sample_graph = Some g) in Hg; congruence).
  destruct (Hnodes ("east", "1", 1%nat) series5) as (t' & Ht' & Hhidden);
    [reflexivity | reflexivity |].
  by exists st1, g1, t'.
Defined.

(** X12. On a match of a round other than 0, the value the games selector
    shows is the length a pick records and sends, provided no length is
    recorded yet or the recorded winner is the team picked.  (Picking the
    other team of a match with a recorded length falls back to the pending
    entry or 4 instead.) *)
Theorem X12_selector_value_is_recorded env st m team bid
    (g : MatchesByConfRound) W :
  truthy (bracketId env) = Some bid →
  matches st = Some g →
  canEdit env st = true →
  has_teams m →
  round m ≠ 0%Z →
  team_of team m = Some W →
  predicted_winner_games m = None ∨ predicted_winner m = Some W →
  winner_games (pendingGames st) m W = select_value st m
  ∧ ∃ st1,
      handleSetWinner_local env st m team
      = Some (st1, PATCH_match bid (id m) (set_winner W (select_value st m))).
Proof.
  intros Hbid Hg Hedit Hteams Hround HW Hshown.
  assert (winner_games (pendingGames st) m W = select_value st m) as Hgames.
  { unfold winner_games, select_value, selectedGames.
    rewrite bool_decide_eq_false_2 by done.
    destruct Hshown as [Hnone|Hsame].
    - rewrite Hnone. case_bool_decide; by destruct (pendingGames st !! id m).
    - rewrite bool_decide_eq_true_2 by done.
      destruct (predicted_winner_games m); [done|].
      by destruct (pendingGames st !! id m). }
  split; [exact Hgames|].
  destruct (set_winner_run env st g m team bid Hbid Hg Hedit Hteams)
    as (W' & L & st1 & HW' & _ & Hrun & _).
  assert (W' = W) as -> by congruence.
  exists st1. by rewrite <- Hgames.
Qed.

Lemma X12_selector_value_witness :
  select_value sample_state series6 = 6%Z
  ∧ select_value sample_state series5 = 6%Z
  ∧ (∃ st1,
       handleSetWinner_local sample_env sample_state series6 A
       = Some (st1, PATCH_match "bracket-1" "e-r1-6" (set_winner "CLE" 6%Z)))
  ∧ ∃ st1,
      handleSetWinner_local sample_env sample_state series5 A
      = Some (st1, PATCH_match "bracket-1" "e-r1-5" (set_winner "NYK" 6%Z)).
Proof.
  split; [reflexivity|]. split; [reflexivity|]. split.
  - apply (X12_selector_value_is_recorded sample_env sample_state series6 A
             "bracket-1" sample_graph "CLE");
      [reflexivity | reflexivity | reflexivity | split; eexists; reflexivity
      | vm_compute; discriminate | reflexivity | left; reflexivity].
  - apply (X12_selector_value_is_recorded sample_env sample_state series5 A
             "bracket-1" sample_graph "NYK");
      [reflexivity | reflexivity | reflexivity | split; eexists; reflexivity
      | vm_compute; discriminate | reflexivity | right; reflexivity].
Defined.

(** X13. After a pick on a graph with unique ids, for a match of it with
    both teams that does not link to itself, the card of the match
    highlights the picked side, does not highlight the other side when the
    two teams differ, and the games shown for it (selector, or badge of a
    read-only view, which stays empty in the play-in) is the length sent
    to the backend. *)
Theorem X13_card_of_the_picked_match env st match_ team bid
    (g : MatchesByConfRound) p :
  truthy (bracketId env) = Some bid →
  matches st = Some g →
  canEdit env st = true →
  unique_ids g →
  match_at g p = Some match_ →
  no_self_link match_ →
  has_teams match_ →
  ∃ st1 W n (g1 : MatchesByConfRound) m1,
    handleSetWinner_local env st match_ team
    = Some (st1, PATCH_match bid (id match_) (set_winner W n))
    ∧ matches st1 = Some g1
    ∧ match_at g1 p = Some m1
    ∧ isWinner m1 team = true
    ∧ (team_a match_ ≠ team_b match_ → isWinner m1 (other_side team) = false)
    ∧ selectedGames st1 m1 = Some n
    ∧ GamesBadge m1 (selectedGames st1 m1)
      = (if bool_decide (round match_ = 0%Z) then None else Some n).
Proof.
  intros Hbid Hg Hedit Hu Hp Hself Hteams.
  destruct (has_teams_sides match_ team Hteams)
    as (ta & tb & Ha & Hb & HW & HL).
  pose proof (handleSetWinner_local_eq env st g match_ team bid ta tb
                Hbid Hg Hedit Ha Hb) as Hrun.
  simpl in Hrun.
  set (W := match team with A => ta | B => tb end) in *.
  set (L := match team with A => tb | B => ta end) in *.
  set (n := winner_games (pendingGames st) match_ W) in *.
  set (m1 := with_prediction (Some W) (Some n) match_).
  pose proof Ha as Ha'. pose proof Hb as Hb'.
  apply truthy_Some in Ha' as [Hta Hane]. apply truthy_Some in Hb' as [Htb Hbne].
  assert (W ≠ "") as HWne by (unfold W; by destruct team).
  assert (truthy (predicted_winner m1) = Some W) as Hpw
    by (apply truthy_Some; by split).
  eexists _, W, n, _, m1. split; [exact Hrun|]. split; [reflexivity|].
  split.
  { rewrite match_at_graph_map, Hp. simpl. f_equal.
    by apply (winner_steps_picked g _ p). }
  split; [|split; [|split]].
  - unfold isWinner. rewrite Hpw. apply bool_decide_eq_true_2.
    unfold team_of in HW. by destruct team.
  - intros Hdiff. unfold isWinner. rewrite Hpw. apply bool_decide_eq_false_2.
    intros Hsame. apply Hdiff. rewrite Hta, Htb.
    unfold team_of in HL, HW. destruct team; simpl in *; congruence.
  - reflexivity.
  - unfold GamesBadge.
    change (truthy (team_a m1)) with (truthy (team_a match_)).
    change (truthy (team_b m1)) with (truthy (team_b match_)).
    rewrite Ha, Hb, Hpw. reflexivity.
Qed.

Lemma X13_card_witness :
  ∃ st1 W n (g1 : MatchesByConfRound) m1,
    handleSetWinner_local sample_env sample_state series6 B
    = Some (st1, PATCH_match "bracket-1" "e-r1-6" (set_winner W n))
    ∧ matches st1 = Some g1
    ∧ match_at g1 ("east", "1", 2%nat) = Some m1
    ∧ isWinner m1 B = true ∧ isWinner m1 A = false
    ∧ GamesBadge m1 (selectedGames st1 m1) = Some n.
Proof.
  destruct (X13_card_of_the_picked_match sample_env sample_state series6 B
              "bracket-1" sample_graph ("east", "1", 2%nat))
    as (st1 & W & n & g1 & m1 & Hrun & Hg1 & Hm1 & Hhi & Hlo & _ & Hbadge).
  - reflexivity.
  - reflexivity.
  - reflexivity.
  - apply unique_idsb_sound. vm_compute. reflexivity.
  - reflexivity.
  - vm_compute. discriminate.
  - split; eexists; reflexivity.
  - exists st1, W, n, g1, m1. split; [exact Hrun|]. split; [exact Hg1|].
    split; [exact Hm1|]. split; [exact Hhi|].
    split; [apply Hlo; vm_compute; discriminate|]. exact Hbadge.
Defined.

(** ** Layout of the grid *)

(** X14. The rows of the grid agree with the connecting lines: for every
    pair of matches [computeLines] joins, the match the pair feeds sits in
    the row midway between the rows of the two.  For the slots the layout
    names, the row does not depend on the position of the match in its
    array, lies in rows 2 to 8 of the nine-row grid, and differs from the
    row of any other named slot of the same round. *)
Theorem X14_grid_rows_fit_the_lines :
  Forall
    (λ '(a, b, d),
       ∀ i j k : Z,
         (2 * getGridRowForMatch d.1 k d.2
          = getGridRowForMatch a.1 i a.2 + getGridRowForMatch b.1 j b.2)%Z)
    vertical_pairs
  ∧ ∀ r s s' i i',
      laid_out_slot r s → laid_out_slot r s' →
      getGridRowForMatch r i s = getGridRowForMatch r 0 s
      ∧ (2 ≤ getGridRowForMatch r i s ≤ 8)%Z
      ∧ (getGridRowForMatch r i s = getGridRowForMatch r i' s' → s = s').
Proof.
  split.
  - repeat constructor; intros i j k; reflexivity.
  - intros r s s' i i' Hs Hs'. unfold laid_out_slot in *.
    unfold getGridRowForMatch. repeat case_bool_decide; lia.
Qed.

Lemma X14_grid_rows_witness :
  laid_out_slot 1 7 ∧ laid_out_slot 1 5
  ∧ getGridRowForMatch 1 3 7 = 4%Z
  ∧ getGridRowForMatch 1 1 5 = 8%Z.
Proof.
  assert (laid_out_slot 1 7) as H7 by (right; left; lia).
  assert (laid_out_slot 1 5) as H5 by (right; left; lia).
  split; [exact H7|]. split; [exact H5|].
  destruct (proj2 X14_grid_rows_fit_the_lines 1%Z 7%Z 5%Z 3%Z 1%Z H7 H5)
    as (Hrow7 & _ & _).
  destruct (proj2 X14_grid_rows_fit_the_lines 1%Z 5%Z 7%Z 1%Z 3%Z H5 H7)
    as (Hrow5 & _ & _).
  split; [rewrite Hrow7; reflexivity | rewrite Hrow5; reflexivity].
Defined.

(** ** The name of the exported image *)

Lemma replace_runs_safe (in_run : bool) (s : string) :
  Forall (λ c, is_word_or_dash c = true)
    (String.list_ascii_of_string (replace_runs in_run s)).
Proof.
  revert in_run. induction s as [|c s IH]; intros in_run; simpl.
  - constructor.
  - destruct (is_word_or_dash c) eqn:Hc; simpl.
    + constructor; [exact Hc | apply IH].
    + destruct in_run; simpl; [apply IH|].
      constructor; [reflexivity | apply IH].
Qed.

Lemma replace_runs_length (in_run : bool) (s : string) :
  String.length (replace_runs in_run s) ≤ String.length s.
Proof.
  revert in_run. induction s as [|c s IH]; intros in_run; simpl; [lia|].
  destruct (is_word_or_dash c); simpl.
  - specialize (IH false). lia.
  - destruct in_run; simpl; specialize (IH true); lia.
Qed.

Lemma replace_runs_fixed (in_run : bool) (s : string) :
  Forall (λ c, is_word_or_dash c = true) (String.list_ascii_of_string s) →
  replace_runs in_run s = s.
Proof.
  revert in_run. induction s as [|c s IH]; intros in_run; simpl; [done|].
  intros [Hc Hs]%Forall_cons. rewrite Hc. f_equal. by apply IH.
Qed.

(** X15. A sanitised name consists of letters, digits, underscores and
    dashes only and is no longer than the raw name; a raw name that
    already consists of such characters is kept as it is, so sanitising
    twice gives what sanitising once gives. *)
Theorem X15_safe_name_is_safe (raw : string) :
  Forall (λ c, is_word_or_dash c = true) (String.list_ascii_of_string (safe_name raw))
  ∧ String.length (safe_name raw) ≤ String.length raw
  ∧ safe_name (safe_name raw) = safe_name raw
  ∧ (Forall (λ c, is_word_or_dash c = true) (String.list_ascii_of_string raw) →
     safe_name raw = raw).
Proof.
  unfold safe_name. split; [apply replace_runs_safe|].
  split; [apply replace_runs_length|].
  split; [apply replace_runs_fixed, replace_runs_safe|].
  apply replace_runs_fixed.
Qed.

Lemma X15_safe_name_witness :
  safe_name "my_bracket-2025" = "my_bracket-2025"
  ∧ safe_name "Jo's  (best) bracket!" = "Jo_s_best_bracket_".
Proof.
  split; [|reflexivity].
  apply (proj2 (proj2 (proj2 (X15_safe_name_is_safe "my_bracket-2025")))).
  apply (proj1 (bool_decide_eq_true _)). vm_compute. reflexivity.
Defined.





(** ** Saving the bracket *)

Lemma canSave_spec env st :
  canSave env st = true →
  canEdit env st = true ∧ allDecided (matches st) = true
  ∧ trimmedName st ≠ "" ∧ saving st = false
  ∧ savingLockedForUser env st = false.
Proof.
  unfold canSave. rewrite !andb_true_iff, !negb_true_iff.
  rewrite bool_decide_eq_false. by intros [[[[? ?] ?] ?] ?].
Qed.

(** X17. [handleSaveBracket] either changes nothing and sends nothing, or
    sends exactly one save request, and then [canSave] held, the name sent
    is the trimmed name and is not blank, the bracket is not locked for
    the user, and the handler ends with [saving] off and the graph and the
    pending-games cache untouched.  Trimming is that of
    [String.prototype.trim]: a name ending in U+00A0 is sent without
    it. *)
Theorem X17_save_sends_once_or_nothing env st patched :
  handleSaveBracket env st patched = (st, [])
  ∨ ∃ bid st',
      handleSaveBracket env st patched
      = (st', [PATCH_save bid (trimmedName st)])
      ∧ truthy (bracketId env) = Some bid
      ∧ canSave env st = true
      ∧ trimmedName st ≠ ""
      ∧ savingLockedForUser env st = false
      ∧ saving st' = false
      ∧ matches st' = matches st
      ∧ pendingGames st' = pendingGames st.
Proof.
  unfold handleSaveBracket.
  destruct (truthy (bracketId env)) as [bid|] eqn:Hbid; [|by left].
  destruct (canSave env st) eqn:Hsave; [|by left]. simpl.
  destruct (canSave_spec env st Hsave) as (_ & _ & Hname & _ & Hlock).
  rewrite Hlock. rewrite bool_decide_eq_false_2 by done.
  right. eexists bid, _. split; [reflexivity|].
  repeat split; try done; by destruct patched.
Qed.

Lemma X17_save_witness :
  bracketName padded_name_state = " My bracket" +:+ nbsp
  ∧ trimmedName padded_name_state = "My bracket"
  ∧ ∃ st',
      handleSaveBracket sample_env padded_name_state (Rejected "offline")
      = (st', [PATCH_save "bracket-1" "My bracket"]).
Proof.
  split; [reflexivity|]. split; [vm_compute; reflexivity|].
  destruct (X17_save_sends_once_or_nothing sample_env padded_name_state
              (Rejected "offline"))
    as [Hnothing|(bid & st' & Hsent & Hbid & _)].
  - vm_compute in Hnothing. discriminate.
  - exists st'. rewrite Hsent. f_equal. f_equal.
    change (Some "bracket-1" = Some bid) in Hbid. injection Hbid as <-.
    f_equal.
Defined.

(** X18. The outcome of a save that was sent.  When the request resolves,
    the bracket is marked done and carries a name, the one the backend
    returned or else the trimmed name, and the message "Bracket saved!" is
    shown with no error.  When it is rejected, the bracket is as before
    (not marked done), no save message is shown, and the error stays in
    the state: its message, or "Failed to save bracket". *)
Theorem X18_save_outcome env st bid :
  truthy (bracketId env) = Some bid →
  canSave env st = true →
  (∀ res,
     let st' := (handleSaveBracket env st (Resolved res)).1 in
     bracket st' = mark_saved res (trimmedName st) <$> bracket st
     ∧ (∀ b, bracket st' = Some b →
             is_done b = true
             ∧ name b = Some (default (trimmedName st) (res_name res)))
     ∧ saveMessage st' = Some "Bracket saved!"
     ∧ error st' = None)
  ∧ (∀ msg,
       let st' := (handleSaveBracket env st (Rejected msg)).1 in
       bracket st' = bracket st
       ∧ saveMessage st' = None
       ∧ error st' = Some (orElse msg "Failed to save bracket")).
Proof.
  intros Hbid Hsave.
  destruct (canSave_spec env st Hsave) as (_ & _ & Hname & _ & Hlock).
  unfold handleSaveBracket. rewrite Hbid, Hsave, Hlock. simpl.
  rewrite bool_decide_eq_false_2 by done. split.
  - intros res. simpl. split; [reflexivity|]. split; [|done].
    intros b'. destruct (bracket st); simpl; [|done]. by intros [= <-].
  - intros msg. by repeat split.
Qed.

Lemma X18_save_outcome_witness :
  canSave sample_env padded_name_state = true
  ∧ (∃ b,
       bracket (handleSaveBracket sample_env padded_name_state
                  (Resolved {| res_name := None;
                               res_saved_at := Some "2025-04-12" |})).1
       = Some b
       ∧ is_done b = true ∧ name b = Some "My bracket")
  ∧ error (handleSaveBracket sample_env padded_name_state (Rejected "")).1
    = Some "Failed to save bracket".
Proof.
  set (st := padded_name_state).
  assert (canSave sample_env st = true) as Hsave by (vm_compute; reflexivity).
  assert (trimmedName st = "My bracket") as Hname
    by (vm_compute; reflexivity).
  split; [exact Hsave|].
  destruct (X18_save_outcome sample_env st "bracket-1" eq_refl Hsave)
    as [Hok Hfail].
  split.
  - destruct (Hok {| res_name := None; res_saved_at := Some "2025-04-12" |})
      as (Hbracket & Hdone & _).
    eexists. split; [exact Hbracket|].
    destruct (Hdone _ Hbracket) as [Hd Hn]. split; [exact Hd|].
    rewrite Hn, Hname. reflexivity.
  - apply (Hfail "").
Defined.

Lemma trim_start_white (s : string) :
  Forall (λ c, is_white_space c = true) (String.list_ascii_of_string s) →
  trim_start s = "".
Proof.
  induction s as [|c s IH]; simpl; [done|].
  intros [Hc Hs]%Forall_cons. rewrite Hc. by apply IH.
Qed.

(** X19. A bracket name made of white space only (or empty) cannot be
    saved: [canSave] is false and [handleSaveBracket] changes nothing and
    sends nothing. *)
Theorem X19_blank_name_cannot_be_saved env st patched :
  Forall (λ c, is_white_space c = true)
    (String.list_ascii_of_string (bracketName st)) →
  canSave env st = false
  ∧ handleSaveBracket env st patched = (st, []).
Proof.
  intros Hblank.
  assert (trimmedName st = "") as Hname.
  { unfold trimmedName, trim. by rewrite (trim_start_white _ Hblank). }
  assert (canSave env st = false) as Hsave.
  { unfold canSave. rewrite Hname. simpl.
    by rewrite andb_false_r. }
  split; [exact Hsave|]. unfold handleSaveBracket. rewrite Hsave.
  by destruct (truthy (bracketId env)).
Qed.

Lemma X19_blank_name_witness :
  canSave sample_env (sample_state_of decided_graph) = true
  ∧ canSave sample_env
      (setBracketName "   " (sample_state_of decided_graph)) = false.
Proof.
  split; [vm_compute; reflexivity|].
  apply (X19_blank_name_cannot_be_saved sample_env
           (setBracketName "   " (sample_state_of decided_graph))
           (Rejected "")).
  apply (proj1 (bool_decide_eq_true _)). vm_compute. reflexivity.
Defined.

(** ** Loading *)

(** X20. [loadBracket] without a bracket id does nothing.  Otherwise it
    sends one GET; when that resolves, the bracket, the graph and the name
    being edited are replaced by what the backend returned (an unsaved
    edit of the name is lost) and the error is cleared; when it is
    rejected, bracket, graph and name are kept and the error is set.  In
    both cases the pending-games cache is kept, and [loading] ends off
    unless the load was silent, which leaves it as it was. *)
Theorem X20_load_replaces_or_keeps env silent st :
  (truthy (bracketId env) = None →
   ∀ res, loadBracket env silent res st = (st, []))
  ∧ (∀ bid,
       truthy (bracketId env) = Some bid →
       (∀ data,
          ∃ st',
            loadBracket env silent (Resolved data) st
            = (st', [GET_bracket bid])
            ∧ bracket st' = Some (resp_bracket data)
            ∧ matches st' = Some (resp_matches data)
            ∧ bracketName st' = default "" (name (resp_bracket data))
            ∧ error st' = None
            ∧ pendingGames st' = pendingGames st
            ∧ loading st' = (if silent then loading st else false))
       ∧ (∀ msg,
            ∃ st',
              loadBracket env silent (Rejected msg) st
              = (st', [GET_bracket bid])
              ∧ bracket st' = bracket st
              ∧ matches st' = matches st
              ∧ bracketName st' = bracketName st
              ∧ error st' = Some (orElse msg "Failed to load bracket")
              ∧ pendingGames st' = pendingGames st
              ∧ loading st' = (if silent then loading st else false))).
Proof.
  unfold loadBracket, loadBracket_begin. split.
  - intros Hnone res. by rewrite Hnone.
  - intros bid Hbid. rewrite Hbid. simpl. split.
    + intros data. eexists. split; [reflexivity|]. by destruct silent.
    + intros msg. eexists. split; [reflexivity|]. by destruct silent.
Qed.

Lemma X20_load_witness :
  (∃ st',
     loadBracket sample_env true (Resolved server_response)
       (setBracketName "Unsaved name" (sample_state_of unlinked_graph))
     = (st', [GET_bracket "bracket-1"])
     ∧ matches st' = Some sample_graph
     ∧ bracketName st' = "My bracket"
     ∧ pendingGames st' = {[ "e-r1-6" := 6%Z ]})
  ∧ loadBracket {| bracketId := Some ""; user_is_admin := false |} false
      (Resolved server_response) sample_state = (sample_state, []).
Proof.
  split.
  - destruct (proj1 (proj2 (X20_load_replaces_or_keeps sample_env true
                              (setBracketName "Unsaved name"
                                 (sample_state_of unlinked_graph)))
                       "bracket-1" eq_refl) server_response)
      as (st' & Hload & _ & Hg & Hname & _ & Hpending & _).
    exists st'. split; [exact Hload|]. split; [exact Hg|].
    split; [exact Hname | exact Hpending].
  - apply (proj1 (X20_load_replaces_or_keeps
                    {| bracketId := Some ""; user_is_admin := false |} false
                    sample_state)).
    reflexivity.
Defined.

(** ** Names on the cards *)

(** X21. The name a card shows for a side is never empty, and is chosen
    in this order: the display name when that is a non-empty string, else
    the team reference when that is a non-empty string, else "TBD". *)
Theorem X21_team_name_is_never_empty (m : Match) (side : Side) :
  let display := match side with A => team_a_name m | B => team_b_name m end in
  let reference := match side with A => team_a m | B => team_b m end in
  getTeamName m side ≠ ""
  ∧ (getTeamName m side = "TBD"
     ∨ Val (getTeamName m side) = tf_name (side_fields side m)
     ∨ Some (getTeamName m side) = tf_team (side_fields side m))
  ∧ (∀ n, display = Val n → n ≠ "" → getTeamName m side = n)
  ∧ (display = Undefined ∨ display = Null ∨ display = Val "" →
     (∀ t, reference = Some t → t ≠ "" → getTeamName m side = t)
     ∧ (reference = None ∨ reference = Some "" →
        getTeamName m side = "TBD")).
Proof.
  intros display reference.
  assert (tf_name (side_fields side m) = display) as Hd by (by destruct side).
  assert (tf_team (side_fields side m) = reference) as Hr
    by (by destruct side).
  unfold getTeamName. rewrite Hd, Hr. clearbody display reference.
  split; [|split; [|split]].
  - destruct display as [| |n]; simpl; try case_bool_decide;
      destruct reference as [t|]; simpl; try case_bool_decide; done.
  - destruct display as [| |n]; simpl; try case_bool_decide;
      destruct reference as [t|]; simpl; try case_bool_decide; auto.
  - intros n -> Hn. simpl. by rewrite bool_decide_eq_false_2.
  - intros Hfalsy.
    assert (truthyJs display = None) as ->
      by (by destruct Hfalsy as [->|[->| ->]]).
    split.
    + intros t -> Ht. simpl. by rewrite bool_decide_eq_false_2.
    + by intros [->| ->].
Qed.

Lemma X21_team_name_witness :
  getTeamName playin2 A = "Team MIA"
  ∧ getTeamName
      (sample_match "m" 1 4 (Some "BOS") None None None Null Null) B = "TBD"
  ∧ getTeamName
        {| id := "m"; bracket_id := "b"; conference := "east"; round := 1;
            slot := 4; team_a := Some "team-7"; team_b := None;
            predicted_winner := None; predicted_winner_games := None;
            next_match_id := Null; next_slot := Null;
            team_a_name := Val ""; team_b_name := Undefined;
            team_a_code := Null; team_b_code := Null;
            team_a_logo_url := Null; team_b_logo_url := Null;
            team_a_primary_color := Null; team_a_secondary_color := Null;
            team_b_primary_color := Null; team_b_secondary_color := Null |}
      A = "team-7".
Proof.
  split; [|split].
  - apply (proj1 (proj2 (proj2 (X21_team_name_is_never_empty playin2 A)))
             "Team MIA"); [reflexivity | discriminate].
  - apply (proj2 (proj2 (proj2 (X21_team_name_is_never_empty _ B))));
      [by right; left | by left].
  - apply (proj2 (proj2 (proj2 (X21_team_name_is_never_empty _ A))));
      [by right; right | reflexivity | discriminate].
Defined.

(** ** Undo always re-syncs; a change of length keeps the bracket complete *)

(** X22. An undo that gets past its guards always sends the PATCH and then
    a GET, whatever the outcomes of the PATCH and of the GET; when the GET
    resolves the handler ends with the graph and bracket of the backend in
    place of the optimistic ones, and with no error in the state, whether
    the PATCH resolved or not.  A pick whose PATCH resolves, on any
    bracket and by any user who may edit it, sends nothing else and keeps
    the optimistic state. *)
Theorem X22_undo_always_reloads env st match_ bid :
  truthy (bracketId env) = Some bid →
  (∀ st1 req,
     handleUndo_local env st match_ = Some (st1, req) →
     (∀ patched reload,
        (handleUndo env st match_ patched reload).2
        = [req; GET_bracket bid])
     ∧ (∀ patched data,
          ∃ st',
            handleUndo env st match_ patched (Resolved data)
            = (st', [req; GET_bracket bid])
            ∧ matches st' = Some (resp_matches data)
            ∧ bracket st' = Some (resp_bracket data)
            ∧ error st' = None
            ∧ pendingGames st' = pendingGames st1))
  ∧ (∀ team stw reqw reload,
       handleSetWinner_local env st match_ team = Some (stw, reqw) →
       handleSetWinner env st match_ team (Resolved ()) reload
       = (setUpdatingMatchId None stw, [reqw])
       ∧ matches (handleSetWinner env st match_ team (Resolved ()) reload).1
         = matches stw
       ∧ pendingGames
           (handleSetWinner env st match_ team (Resolved ()) reload).1
         = pendingGames stw).
Proof.
  intros Hbid. split.
  - intros st1 req Hrun. split.
    + intros patched reload. unfold handleUndo. rewrite Hrun.
      destruct patched as [[]|msg]; unfold recover, loadBracket,
        loadBracket_begin; by rewrite Hbid.
    + intros patched data. unfold handleUndo. rewrite Hrun.
      destruct patched as [[]|msg].
      * unfold loadBracket, loadBracket_begin. rewrite Hbid. simpl.
        eexists. by repeat split.
      * destruct (recover_resolved env msg "Failed to undo prediction" data
                    st1 bid Hbid)
          as (st2 & st' & _ & _ & -> & Herr & Hg & Hb & Hp).
        eexists. by repeat split.
  - intros team stw reqw reload Hpick. unfold handleSetWinner.
    by rewrite Hpick.
Qed.

Lemma X22_undo_reloads_witness :
  (∃ st1 req st',
     handleUndo_local admin_env master_state series5 = Some (st1, req)
     ∧ handleUndo admin_env master_state series5 (Resolved ())
         (Resolved server_response) = (st', [req; GET_bracket "bracket-0"])
     ∧ matches st' = Some sample_graph
     ∧ error st' = None
     ∧ (handleUndo admin_env master_state series5 (Rejected "no")
          (Rejected "offline")).2 = [req; GET_bracket "bracket-0"])
  ∧ ∃ stw reqw,
      handleSetWinner_local sample_env sample_state series6 A
      = Some (stw, reqw)
      ∧ handleSetWinner sample_env sample_state series6 A (Resolved ())
          (Rejected "unused")
        = (setUpdatingMatchId None stw, [reqw]).
Proof.
  split.
  - destruct (handleUndo_local admin_env master_state series5)
      as [[st1 req]|] eqn:Hrun; [|vm_compute in Hrun; discriminate].
    destruct (proj1 (X22_undo_always_reloads admin_env master_state series5
                       "bracket-0" eq_refl) st1 req Hrun)
      as [Hreqs Hsync].
    destruct (Hsync (Resolved ()) server_response)
      as (st' & Hfull & Hg & _ & Herr & _).
    exists st1, req, st'. split; [reflexivity|]. split; [exact Hfull|].
    split; [exact Hg|]. split; [exact Herr|]. apply Hreqs.
  - destruct (handleSetWinner_local sample_env sample_state series6 A)
      as [[stw reqw]|] eqn:Hrun; [|vm_compute in Hrun; discriminate].
    exists stw, reqw. split; [reflexivity|].
    apply (proj2 (X22_undo_always_reloads sample_env sample_state series6
                    "bracket-1" eq_refl) A stw reqw (Rejected "unused") Hrun).
Defined.

Lemma match_decided_games (t : Match) (n : Z) :
  match_decided t = true →
  match_decided (with_prediction (predicted_winner t) (Some n) t) = true.
Proof.
  unfold match_decided. simpl.
  destruct (truthy (team_a t)), (truthy (team_b t)); try done.
  destruct (truthy (predicted_winner t)); [|done].
  intros _. by rewrite andb_false_r.
Qed.

(** X23. Changing the length of a series never takes a complete bracket
    out of the saveable state: if [allDecided] held before
    [handleSelectGames], it holds after its local mutation, whatever the
    match and the value. *)
Theorem X23_select_games_keeps_all_decided env st match_ gamesValue :
  allDecided (matches st) = true →
  allDecided (matches (handleSelectGames_local env st match_ gamesValue).1)
  = true.
Proof.
  intros Hall. unfold handleSelectGames_local.
  destruct (truthy (bracketId env)) as [bid|]; [|exact Hall].
  destruct (matches st) as [g|] eqn:Hg; [|done].
  destruct (canEdit env st); [|simpl; by rewrite Hg].
  case_bool_decide; [simpl; by rewrite Hg|].
  destruct (truthy (predicted_winner match_)) as [winner|];
    [|simpl; by rewrite Hg].
  simpl. rewrite Hg. simpl.
  apply allDecided_spec in Hall as [Hne Hall]. apply allDecided_spec. split.
  - intros Hempty. apply Hne. unfold graph_map in Hempty.
    by apply fmap_empty_inv in Hempty.
  - intros p m. rewrite match_at_graph_map.
    destruct (match_at g p) as [t|] eqn:Hp; simpl; [|done].
    intros [= <-]. specialize (Hall p t Hp). unfold update_if.
    case_bool_decide; [|done]. by apply match_decided_games.
Qed.

Lemma X23_select_games_witness :
  allDecided (Some decided_graph) = true
  ∧ allDecided
      (matches
         (handleSelectGames_local sample_env (sample_state_of decided_graph)
            series5 4).1) = true.
Proof.
  assert (allDecided (matches (sample_state_of decided_graph)) = true)
    as Hall by (vm_compute; reflexivity).
  split; [exact Hall|].
  apply (X23_select_games_keeps_all_decided sample_env
           (sample_state_of decided_graph) series5 4 Hall).
Defined.
